(** * A fast lookahead microphone AGC (agc.c): shallow embedding and properties

    The development follows [src/c/agc.c] function by function.

    Modelling conventions.
    - A C [float] value is a rational ([Q]): the finite values only, there
      is no infinity and no NaN (a division by zero yields [0], as [Qdiv]
      does).  Rounding to binary32 ([round_f32]: 24 significant bits,
      nearest, ties to even, subnormal numbers down to [2^-149]) is applied
      to the conversions from [int], to the capacity product of
      [agc_init], to the ramp step of [setup_ratio] and to the additions
      of the gain ramp in [agc_process_stage2].  The signal path (filters,
      envelope followers, target gain, ducker, meters) and the filter
      coefficients are computed exactly; the followers themselves only
      compare and copy, so nothing is rounded there in C either.  A result
      beyond the largest binary32 number ([f32_max]), which C turns into
      an infinity, is outside the model: a statement that depends on one
      carries the hypothesis that it stays in range.  Comparisons are the
      exact ones.
    - C [int] values are integers in [Z]; the increments and products the
      source performs on them are wrapped to 32 bits two's complement
      ([wrap_int]), [/] is [Z.quot] and [%] is [Z.rem].
    - A [struct agc *] is an address ([N], [0] being [NULL]) into a heap
      of channel records ([gmap N agc]); [host] and [partner] are such
      addresses, so two channels of a stereo pair alias one another the
      way they do in C.  Each channel owns its delay line ([buffer]).
    - An operation that the C standard leaves undefined (dereferencing a
      dangling channel, indexing outside an array, [%] by zero) yields
      [None].
    - The C library is a parameter ([Libc]): [powf], [log10f], [strtof],
      [atoi] and the outcome of [calloc]. *)

From Stdlib Require Import ZArith QArith Qabs Qround Qminmax Qpower Lia Lqa String Ascii List.
From stdpp Require Import base option gmap strings list.

Open Scope Q_scope.

(** ** C scalars *)

Abbreviation float := Q (only parsing).

Definition INT_MIN : Z := - 2 ^ 31.
Definition INT_MAX : Z := 2 ^ 31 - 1.

(** 32-bit two's complement wrap-around of an [int] result. *)
Definition wrap_int (z : Z) : Z := ((z + 2 ^ 31) mod 2 ^ 32 - 2 ^ 31)%Z.

(** [x < y] and [x > y] on floats, as booleans. *)
Definition fltb (x y : float) : bool :=
  match x ?= y with Lt => true | _ => false end.
Definition fgtb (x y : float) : bool := fltb y x.

Infix "<.?" := fltb (at level 70, no associativity) : Q_scope.
Infix ">.?" := fgtb (at level 70, no associativity) : Q_scope.

(** *** Rounding to binary32 *)

Definition pow2 (k : Z) : Q := Qpower 2 k.

(** The exponent of the leading bit of [x], for [0 < x]: the integer part
    of its base-two logarithm. *)
Definition Qlog2 (x : Q) : Z :=
  let k := (Z.log2 (Qnum x) - Z.log2 (Zpos (Qden x)))%Z in
  if x <.? pow2 k then (k - 1)%Z else k.

(** The nearest integer, the even one of the two when [x] is halfway. *)
Definition round_half_even (x : Q) : Z :=
  let n := Qfloor x in
  match Qcompare (x - inject_Z n) (1 # 2) with
  | Lt => n
  | Gt => (n + 1)%Z
  | Eq => if Z.even n then n else (n + 1)%Z
  end.

(** The exponent of the unit in the last place of the binary32 numbers
    around [x]: 24 significant bits, and [2^-149] in the subnormal range. *)
Definition f32_exponent (x : Q) : Z := Z.max (Qlog2 (Qabs x) - 23) (-149).

(** The binary32 number nearest to [x] (in lowest terms); the exponent
    range is not bounded above. *)
Definition round_f32 (x : Q) : float :=
  let x := Qred x in
  let e := f32_exponent x in
  Qred (inject_Z (round_half_even (x / pow2 e)) * pow2 e).

Arguments round_f32 : simpl never.


(** [(float) z] rounds to binary32, and [(int) x] truncates toward zero;
    outside the range of [int] it yields [INT_MIN] (what the x86
    conversion instruction returns there). *)
Definition float_of_int (z : Z) : float := round_f32 (inject_Z z).

Arguments float_of_int : simpl never.

Definition Qtrunc (x : float) : Z := Z.quot (Qnum x) (Zpos (Qden x)).

Definition int_of_float (x : float) : Z :=
  let t := Qtrunc x in
  if ((INT_MIN <=? t) && (t <=? INT_MAX))%Z then t else INT_MIN.

(** [M_PI] of <math.h>: the double nearest to pi, which is this rational. *)
Definition M_PI : float := 884279719003555 # 281474976710656.

(** ** Arrays of four elements *)

Record arr4 (A : Type) : Type := Arr4 { at0 : A; at1 : A; at2 : A; at3 : A }.
Arguments Arr4 {A} _ _ _ _.
Arguments at0 {A} _.
Arguments at1 {A} _.
Arguments at2 {A} _.
Arguments at3 {A} _.

Definition arr4_get {A} (v : arr4 A) (i : Z) : option A :=
  match i with
  | 0%Z => Some (at0 v)
  | 1%Z => Some (at1 v)
  | 2%Z => Some (at2 v)
  | 3%Z => Some (at3 v)
  | _ => None
  end.

Definition arr4_set {A} (v : arr4 A) (i : Z) (x : A) : option (arr4 A) :=
  match i with
  | 0%Z => Some (Arr4 x (at1 v) (at2 v) (at3 v))
  | 1%Z => Some (Arr4 (at0 v) x (at2 v) (at3 v))
  | 2%Z => Some (Arr4 (at0 v) (at1 v) x (at3 v))
  | 3%Z => Some (Arr4 (at0 v) (at1 v) (at2 v) x)
  | _ => None
  end.

Definition arr4_all {A} (x : A) : arr4 A := Arr4 x x x x.

Definition arr4_map {A B} (g : A -> B) (v : arr4 A) : arr4 B :=
  Arr4 (g (at0 v)) (g (at1 v)) (g (at2 v)) (g (at3 v)).

(** ** The C library *)

Class Libc : Type := {
  powf : float -> float -> float;
  log10f : float -> float;
  strtof : string -> float;
  atoi : string -> Z;
  (** [calloc(1, sizeof (struct agc))] returns a block *)
  calloc_agc : bool;
  (** [calloc(n, sizeof (float))] returns a block, for [0 <= n] *)
  calloc_floats : Z -> bool
}.

(** ** The structures of agc.c *)

(** coefficients of agc_RC_Filter *)
Module Coe.
Record t : Type := mk { a : float; b : float; c : float; f : float; q : float }.
Definition zero : t := mk 0 0 0 0 0.
End Coe.

(** variables of agc_RC_Filter *)
Module Var.
Record t : Type := mk { last_in : float; lp : float; bp : float; hp : float }.
Definition zero : t := mk 0 0 0 0.
Definition set_last_in (x : float) (v : t) : t := mk x (lp v) (bp v) (hp v).
Definition set_lp (x : float) (v : t) : t := mk (last_in v) x (bp v) (hp v).
Definition set_bp (x : float) (v : t) : t := mk (last_in v) (lp v) x (hp v).
Definition set_hp (x : float) (v : t) : t := mk (last_in v) (lp v) (bp v) x.
End Var.

(** structure for an RC filter *)
Record agc_RC_Filter : Type := mkFilter { coe : Coe.t; var : Var.t }.

Definition set_coe (c : Coe.t) (fl : agc_RC_Filter) : agc_RC_Filter := mkFilter c (var fl).
Definition set_var (v : Var.t) (fl : agc_RC_Filter) : agc_RC_Filter := mkFilter (coe fl) v.
Definition RC_zero : agc_RC_Filter := mkFilter Coe.zero Var.zero.

Abbreviation ptr := N (only parsing).
Definition NULL : ptr := 0%N.

Record agc : Type := mkAgc {
  host : ptr;       (* points to self or partner for stereo implementation *)
  partner : ptr;
  input : float;
  ratio : float;
  limit : float;
  nr_gain : float;
  nr_onthres : float;
  nr_offthres : float;
  gain_interval_amount : float; (* agc gain can move by this amount each interval *)
  nr_state : Z;
  buffer : list float;          (* eventual buffer size depends on sample rate *)
  buffer_len : Z;
  sRate : Z;                    (* the sample rate in use by JACK *)
  in_pos : Z;
  out_pos : Z;
  gain : float;
  DC : float;
  ds_bias : float;
  ds_gain : float;
  ds_state : Z;
  RR_reset_point : arr4 Z;      (* reset intervals used by all the envelope followers *)
  RR_signal : arr4 float;
  RR_DS_high : arr4 float;
  RR_DS_low : arr4 float;
  use_ducker : Z;
  df : float;
  ducker_attack : float;
  ducker_release : float;
  ducker_hold_timer : Z;
  ducker_hold_timer_resetval : Z;
  meter_red : float;
  meter_yellow : float;
  meter_green : float;
  RC_HPF_initial : arr4 agc_RC_Filter;
  hpstages : Z;
  hf_detail : float;
  RC_HPF_detail : agc_RC_Filter;
  lf_detail : float;
  RC_LPF_detail : agc_RC_Filter;
  use_phaserotator : Z;
  RC_PHR : arr4 agc_RC_Filter;
  RC_F_DS : agc_RC_Filter
}.

(** The block [calloc] returns: every field zero. *)
Definition agc_zero : agc :=
  {| host := NULL; partner := NULL; input := 0; ratio := 0; limit := 0;
     nr_gain := 0; nr_onthres := 0; nr_offthres := 0;
     gain_interval_amount := 0; nr_state := 0; buffer := [];
     buffer_len := 0; sRate := 0; in_pos := 0; out_pos := 0; gain := 0;
     DC := 0; ds_bias := 0; ds_gain := 0; ds_state := 0;
     RR_reset_point := arr4_all 0%Z; RR_signal := arr4_all 0;
     RR_DS_high := arr4_all 0; RR_DS_low := arr4_all 0; use_ducker := 0;
     df := 0; ducker_attack := 0; ducker_release := 0;
     ducker_hold_timer := 0; ducker_hold_timer_resetval := 0;
     meter_red := 0; meter_yellow := 0; meter_green := 0;
     RC_HPF_initial := arr4_all RC_zero; hpstages := 0; hf_detail := 0;
     RC_HPF_detail := RC_zero; lf_detail := 0; RC_LPF_detail := RC_zero;
     use_phaserotator := 0; RC_PHR := arr4_all RC_zero; RC_F_DS := RC_zero |}.

(** Assignment to one field, [s->fld = v]: the record with that field
    replaced.  The setter is read off the eta-expansion of the record. *)
Definition agc_eta (s : agc) : agc :=
  {| host := host s; partner := partner s; input := input s; ratio := ratio s;
     limit := limit s; nr_gain := nr_gain s; nr_onthres := nr_onthres s;
     nr_offthres := nr_offthres s;
     gain_interval_amount := gain_interval_amount s; nr_state := nr_state s;
     buffer := buffer s; buffer_len := buffer_len s; sRate := sRate s;
     in_pos := in_pos s; out_pos := out_pos s; gain := gain s; DC := DC s;
     ds_bias := ds_bias s; ds_gain := ds_gain s; ds_state := ds_state s;
     RR_reset_point := RR_reset_point s; RR_signal := RR_signal s;
     RR_DS_high := RR_DS_high s; RR_DS_low := RR_DS_low s;
     use_ducker := use_ducker s; df := df s;
     ducker_attack := ducker_attack s; ducker_release := ducker_release s;
     ducker_hold_timer := ducker_hold_timer s;
     ducker_hold_timer_resetval := ducker_hold_timer_resetval s;
     meter_red := meter_red s; meter_yellow := meter_yellow s;
     meter_green := meter_green s; RC_HPF_initial := RC_HPF_initial s;
     hpstages := hpstages s; hf_detail := hf_detail s;
     RC_HPF_detail := RC_HPF_detail s; lf_detail := lf_detail s;
     RC_LPF_detail := RC_LPF_detail s; use_phaserotator := use_phaserotator s;
     RC_PHR := RC_PHR s; RC_F_DS := RC_F_DS s |}.

Ltac field_setter proj :=
  let v := fresh "v" in
  let s := fresh "s" in
  intros v s;
  let e := eval cbv beta delta [agc_eta] in (agc_eta s) in
  lazymatch e with
  | context C [proj s] => let t := context C [v] in exact t
  end.

Definition set_host : ptr -> agc -> agc := ltac:(field_setter host).
Definition set_partner : ptr -> agc -> agc := ltac:(field_setter partner).
Definition set_input : float -> agc -> agc := ltac:(field_setter input).
Definition set_ratio : float -> agc -> agc := ltac:(field_setter ratio).
Definition set_limit : float -> agc -> agc := ltac:(field_setter limit).
Definition set_nr_gain : float -> agc -> agc := ltac:(field_setter nr_gain).
Definition set_nr_onthres : float -> agc -> agc := ltac:(field_setter nr_onthres).
Definition set_nr_offthres : float -> agc -> agc := ltac:(field_setter nr_offthres).
Definition set_gain_interval_amount : float -> agc -> agc :=
  ltac:(field_setter gain_interval_amount).
Definition set_nr_state : Z -> agc -> agc := ltac:(field_setter nr_state).
Definition set_buffer : list float -> agc -> agc := ltac:(field_setter buffer).
Definition set_buffer_len : Z -> agc -> agc := ltac:(field_setter buffer_len).
Definition set_sRate : Z -> agc -> agc := ltac:(field_setter sRate).
Definition set_in_pos : Z -> agc -> agc := ltac:(field_setter in_pos).
Definition set_out_pos : Z -> agc -> agc := ltac:(field_setter out_pos).
Definition set_gain : float -> agc -> agc := ltac:(field_setter gain).
Definition set_ds_bias : float -> agc -> agc := ltac:(field_setter ds_bias).
Definition set_ds_gain : float -> agc -> agc := ltac:(field_setter ds_gain).
Definition set_ds_state : Z -> agc -> agc := ltac:(field_setter ds_state).
Definition set_RR_reset_point : arr4 Z -> agc -> agc := ltac:(field_setter RR_reset_point).
Definition set_RR_signal : arr4 float -> agc -> agc := ltac:(field_setter RR_signal).
Definition set_RR_DS_high : arr4 float -> agc -> agc := ltac:(field_setter RR_DS_high).
Definition set_RR_DS_low : arr4 float -> agc -> agc := ltac:(field_setter RR_DS_low).
Definition set_use_ducker : Z -> agc -> agc := ltac:(field_setter use_ducker).
Definition set_df : float -> agc -> agc := ltac:(field_setter df).
Definition set_ducker_attack : float -> agc -> agc := ltac:(field_setter ducker_attack).
Definition set_ducker_release : float -> agc -> agc := ltac:(field_setter ducker_release).
Definition set_ducker_hold_timer : Z -> agc -> agc := ltac:(field_setter ducker_hold_timer).
Definition set_ducker_hold_timer_resetval : Z -> agc -> agc :=
  ltac:(field_setter ducker_hold_timer_resetval).
Definition set_meter_red : float -> agc -> agc := ltac:(field_setter meter_red).
Definition set_meter_yellow : float -> agc -> agc := ltac:(field_setter meter_yellow).
Definition set_meter_green : float -> agc -> agc := ltac:(field_setter meter_green).
Definition set_RC_HPF_initial : arr4 agc_RC_Filter -> agc -> agc :=
  ltac:(field_setter RC_HPF_initial).
Definition set_hpstages : Z -> agc -> agc := ltac:(field_setter hpstages).
Definition set_hf_detail : float -> agc -> agc := ltac:(field_setter hf_detail).
Definition set_RC_HPF_detail : agc_RC_Filter -> agc -> agc :=
  ltac:(field_setter RC_HPF_detail).
Definition set_lf_detail : float -> agc -> agc := ltac:(field_setter lf_detail).
Definition set_RC_LPF_detail : agc_RC_Filter -> agc -> agc :=
  ltac:(field_setter RC_LPF_detail).
Definition set_use_phaserotator : Z -> agc -> agc := ltac:(field_setter use_phaserotator).
Definition set_RC_PHR : arr4 agc_RC_Filter -> agc -> agc := ltac:(field_setter RC_PHR).
Definition set_RC_F_DS : agc_RC_Filter -> agc -> agc := ltac:(field_setter RC_F_DS).

Abbreviation heap := (gmap N agc) (only parsing).

(** ** The RC filters *)

Definition agc_12db_hpfilter (c : Coe.t) (v : Var.t) (inp : float) : Var.t * float :=
  let inp := inp + Coe.q c * Var.bp v in
  let v := Var.set_hp (Coe.c c * (Var.hp v + inp - Var.last_in v)) v in
  let v := Var.set_bp (Var.bp v * Coe.a c + Var.hp v * Coe.b c) v in
  let v := Var.set_last_in inp v in
  (v, Var.hp v).

Definition agc_6db_hpfilter (detail : float) (c : Coe.t) (v : Var.t) (inp : float)
  : Var.t * float :=
  let v := Var.set_hp (Coe.c c * (Var.hp v + inp - Var.last_in v)) v in
  let v := Var.set_last_in inp v in
  (v, inp + Var.hp v * detail).

Definition agc_6db_lpfilter (detail : float) (c : Coe.t) (v : Var.t) (inp : float)
  : Var.t * float :=
  let v := Var.set_lp (Var.lp v * Coe.a c + inp * Coe.b c) v in
  (v, inp + Var.lp v * detail).

Definition agc_phaserotate (fl : agc_RC_Filter) (inp : float) : agc_RC_Filter * float :=
  let c := coe fl in
  let v := var fl in
  let v := Var.set_hp (Coe.c c * (Var.hp v + inp - Var.last_in v)) v in
  let v := Var.set_lp (Var.lp v * Coe.a c + inp * Coe.b c) v in
  let v := Var.set_last_in inp v in
  (set_var v fl, Var.lp v - Var.hp v).

(** ** agc_process_stage1 *)

(** The loop [for (i = 0, q = s->host->hpstages; i < q; ++i)]: [n] stages
    remain, [i] is the next one; the coefficients are the host's, the
    variables the channel's own.  A stage outside the four of the array
    is an access out of bounds. *)
Fixpoint hpf_cascade (n : nat) (i : Z) (coes vars : arr4 agc_RC_Filter) (inp : float)
  : option (arr4 agc_RC_Filter * float) :=
  match n with
  | O => Some (vars, inp)
  | S n' =>
      fc ← arr4_get coes i;
      fv ← arr4_get vars i;
      let '(v, out) := agc_12db_hpfilter (coe fc) (var fv) inp in
      vars' ← arr4_set vars i (set_var v fv);
      hpf_cascade n' (i + 1)%Z coes vars' out
  end.

(** The loop [for (i = 0; i < 4; ++i) input = agc_phaserotate(s->RC_PHR + i, input)]. *)
Definition phaserotate4 (phr : arr4 agc_RC_Filter) (inp : float)
  : arr4 agc_RC_Filter * float :=
  let '(f0, inp) := agc_phaserotate (at0 phr) inp in
  let '(f1, inp) := agc_phaserotate (at1 phr) inp in
  let '(f2, inp) := agc_phaserotate (at2 phr) inp in
  let '(f3, inp) := agc_phaserotate (at3 phr) inp in
  (Arr4 f0 f1 f2 f3, inp).

(** [buffer[pos % buffer_len]]: the index, when it is inside the buffer. *)
Definition ring_index (c : agc) (pos : Z) : option nat :=
  if (buffer_len c =? 0)%Z then None
  else
    let i := Z.rem pos (buffer_len c) in
    if ((0 <=? i) && (i <? Z.of_nat (length (buffer c))))%Z
    then Some (Z.to_nat i) else None.

(** The body of the function on the channel [c], whose host is [hst]. *)
Definition stage1 (hst c : agc) (inp : float) : option agc :=
  (* the subsonic highpass cascade *)
  '(hpf, inp) ← hpf_cascade (Z.to_nat (hpstages hst)) 0
                   (RC_HPF_initial hst) (RC_HPF_initial c) inp;
  let c := set_RC_HPF_initial hpf c in
  (* HF-Detail-Filter *)
  let '(v, inp) := agc_6db_hpfilter (hf_detail hst) (coe (RC_HPF_detail hst))
                     (var (RC_HPF_detail c)) inp in
  let c := set_RC_HPF_detail (set_var v (RC_HPF_detail c)) c in
  (* LF-Detail-Filter *)
  let '(v, inp) := agc_6db_lpfilter (lf_detail hst) (coe (RC_LPF_detail hst))
                     (var (RC_LPF_detail c)) inp in
  let c := set_RC_LPF_detail (set_var v (RC_LPF_detail c)) c in
  (* Phase-rotator *)
  let '(phr, inp) := if (use_phaserotator hst =? 0)%Z then (RC_PHR c, inp)
                     else phaserotate4 (RC_PHR c) inp in
  let c := set_RC_PHR phr c in
  (* feed input into ring-buffer, store input *)
  i ← ring_index c (in_pos c);
  let c := set_input inp c in
  let c := set_buffer (<[i := inp]> (buffer c)) c in
  (* update pointers of the ring-buffer *)
  let c := set_in_pos (wrap_int (in_pos c + 1)) c in
  let c := set_out_pos (wrap_int (out_pos c + 1)) c in
  Some c.

Definition agc_process_stage1 (h : heap) (s : ptr) (inp : float) : option heap :=
  c ← h !! s;
  hst ← h !! host c;
  c' ← stage1 hst c inp;
  Some (<[s := c']> h).

(** ** agc_quad_rr: the round-robin envelope follower *)

(** One turn of the loop on one slot: reset when due, then raise. *)
Definition rr_slot (reset_point phase : Z) (inp storage : float) : float :=
  let storage := if (reset_point =? phase)%Z then 0 else storage in
  if inp >.? storage then inp else storage.

Definition rr_highest (storage highest : float) : float :=
  if storage >.? highest then storage else highest.

Definition agc_quad_rr (storage : arr4 float) (reset_point : arr4 Z) (phase : Z)
  (inp : float) : arr4 float * float :=
  let highest := 0 in
  let inp := Qabs inp in
  let s0 := rr_slot (at0 reset_point) phase inp (at0 storage) in
  let highest := rr_highest s0 highest in
  let s1 := rr_slot (at1 reset_point) phase inp (at1 storage) in
  let highest := rr_highest s1 highest in
  let s2 := rr_slot (at2 reset_point) phase inp (at2 storage) in
  let highest := rr_highest s2 highest in
  let s3 := rr_slot (at3 reset_point) phase inp (at3 storage) in
  let highest := rr_highest s3 highest in
  (Arr4 s0 s1 s2 s3, highest).

(** ** agc_process_stage2 *)

(** De-Esser sidechain-filter - does high and low pass filtering. *)
Definition ds_sidechain (fl : agc_RC_Filter) (inp : float) : agc_RC_Filter :=
  let c := coe fl in
  let v := var fl in
  let ds_input := inp in
  let ds_input := ds_input + Coe.q c * Var.bp v in
  let v := Var.set_lp (Var.lp v * Coe.a c + ds_input * Coe.b c) v in
  let v := Var.set_hp (Coe.c c * (Var.hp v + inp - Var.last_in v)) v in
  let v := Var.set_bp (Var.bp v * Coe.a c + Var.hp v * Coe.b c) v in
  let v := Var.set_last_in ds_input v in
  set_var v fl.

(** [phase = s->in_pos % (2 * s->buffer_len)], stored in a [float] and
    handed to [agc_quad_rr] as an [int]. *)
Definition stage2_phase (c : agc) : option Z :=
  let cycle := wrap_int (2 * buffer_len c) in
  if (cycle =? 0)%Z then None
  else Some (int_of_float (float_of_int (Z.rem (in_pos c) cycle))).

(** The three envelope followers: de-esser high band, de-esser low band
    and the general signal level. *)
Definition stage2_follow (c : agc) (phase : Z) (inp : float)
  : agc * (float * float * float) :=
  let c := set_RC_F_DS (ds_sidechain (RC_F_DS c) inp) c in
  let '(st, ds_amph) :=
    agc_quad_rr (RR_DS_high c) (RR_reset_point c) phase (Var.hp (var (RC_F_DS c))) in
  let c := set_RR_DS_high st c in
  let '(st, ds_ampl) :=
    agc_quad_rr (RR_DS_low c) (RR_reset_point c) phase (Var.lp (var (RC_F_DS c))) in
  let c := set_RR_DS_low st c in
  let '(st, amp) := agc_quad_rr (RR_signal c) (RR_reset_point c) phase inp in
  let c := set_RR_signal st c in
  (c, (ds_amph, ds_ampl, amp)).

(** raw-amplification-factor limited to maximum allowed ratio *)
Definition stage2_raw_factor (c : agc) (amp : float) : float :=
  let factor := limit c / (amp + 0.0001) in
  if factor >.? ratio c then ratio c else factor.

(** if below noise-floor, attenuate signal *)
Definition stage2_noise_gate (c : agc) (amp : float) : agc :=
  let c := if amp <.? nr_onthres c then set_nr_state 1 c else c in
  let c := if amp >.? nr_offthres c then set_nr_state 0 c else c in
  c.

(** if de-esser says there are only high frequencies, attenuate signal *)
Definition stage2_de_esser (c : agc) (ds_amph ds_ampl : float) : agc :=
  let c := if ds_amph * ds_bias c >.? ds_ampl * 1.3333333 then set_ds_state 1 c else c in
  let c := if ds_amph * ds_bias c <.? ds_ampl * 0.75 then set_ds_state 0 c else c in
  c.

(** The gain the channel is heading for: the raw factor, scaled by the
    noise gate and the de-esser.  Returns the channel with its two
    latches updated, [factor] and [orig_factor]. *)
Definition stage2_factor (c : agc) (ds_amph ds_ampl amp : float) : agc * float * float :=
  let factor := stage2_raw_factor c amp in
  let orig_factor := factor in
  let c := stage2_noise_gate c amp in
  let factor := if (nr_state c =? 1)%Z then factor * nr_gain c else factor in
  let c := stage2_de_esser c ds_amph ds_ampl in
  let factor := if (ds_state c =? 1)%Z then factor * ds_gain c else factor in
  (c, factor, orig_factor).

(** modulate gain-factor: each of the two additions is a binary32
    addition *)
Definition stage2_modulate (c : agc) (factor : float) : agc :=
  let c := if gain c <.? factor
           then set_gain (round_f32 (gain c + gain_interval_amount c)) c else c in
  let c := if gain c >.? factor
           then set_gain (round_f32 (gain c - gain_interval_amount c)) c else c in
  c.

(** ducking is optional and must not work when the mic is closed *)
Definition stage2_ducker (c : agc) (mic_is_mute : Z) (factor amp : float) : agc :=
  if negb (mic_is_mute =? 0)%Z || (use_ducker c =? 0)%Z then
    if df c <.? 1 then set_df (df c + ducker_release c) c
    else set_df 1 c
  else
    (* calculate ducking factor *)
    let duck_amp := 1 - factor * amp in
    let duck_amp := if duck_amp <.? 1 - limit c then 1 - limit c else duck_amp in
    let c :=
      if df c <.? duck_amp then
        if (ducker_hold_timer c =? 0)%Z then set_df (df c + ducker_release c) c
        else set_ducker_hold_timer (wrap_int (ducker_hold_timer c - 1)) c
      else c in
    let c :=
      if df c >.? duck_amp then
        let c := set_df (df c - ducker_attack c) c in
        set_ducker_hold_timer (ducker_hold_timer_resetval c) c
      else c in
    c.

(** maintain a peak hold gain figure for the GUI compression meter *)
Definition stage2_meters (c : agc) (orig_factor : float) : agc :=
  if (Z.land (out_pos c) 7 =? 0)%Z then
    let c := set_meter_red (orig_factor / ratio c) c in
    let c := set_meter_yellow (if (ds_state c =? 0)%Z then 1 else ds_gain c) c in
    let c := set_meter_green (if (nr_state c =? 0)%Z then 1 else nr_gain c) c in
    c
  else c.

(** The body of [if (s == s->host)], on the channel itself; [inp] is the
    sidechain signal and [phase] the phase of the envelope followers. *)
Definition stage2_host (c : agc) (inp : float) (phase : Z) (mic_is_mute : Z) : agc :=
  let '(c, (ds_amph, ds_ampl, amp)) := stage2_follow c phase inp in
  let '(c, factor, orig_factor) := stage2_factor c ds_amph ds_ampl amp in
  let c := stage2_modulate c factor in
  let c := stage2_ducker c mic_is_mute factor amp in
  stage2_meters c orig_factor.

(** audio signal for sidechain use - possibly combined *)
Definition stage2_input (s : ptr) (c p : agc) : float :=
  if decide (host p = s) then (input c + input p) * 0.5 else input c.

Definition agc_process_stage2 (h : heap) (s : ptr) (mic_is_mute : Z) : option heap :=
  c ← h !! s;
  if decide (s = host c) then
    p ← h !! partner c;
    phase ← stage2_phase c;
    Some (<[s := stage2_host c (stage2_input s c p) phase mic_is_mute]> h)
  else Some h.

(** ** agc_process_stage3 *)

Definition agc_process_stage3 (h : heap) (s : ptr) : option float :=
  c ← h !! s;
  hst ← h !! host c;
  i ← ring_index c (out_pos c);
  x ← buffer c !! i;
  Some (x * gain hst).

(** ** Telemetry *)

Section WithLibc.
Context {libc : Libc}.

Definition level2db (level : float) : Z := int_of_float (log10f level * -20).

Definition agc_get_meter_levels (h : heap) (s : ptr) : option (Z * Z * Z) :=
  c ← h !! s;
  Some (level2db (meter_red c), level2db (meter_yellow c), level2db (meter_green c)).

Definition agc_get_ducking_factor (h : heap) (s : ptr) : option float :=
  c ← h !! s;
  Some (df c).

Definition reset_stats (c : agc) : agc :=
  let c := set_meter_green 1 c in
  let c := set_meter_yellow 1 c in
  let c := set_meter_red 1 c in
  set_df 1 c.

Definition agc_reset_stats (h : heap) (s : ptr) : option heap :=
  c ← h !! s;
  Some (<[s := reset_stats c]> h).

(** ** Parameter setup *)

(** [s->ratio / s->buffer_len] is a binary32 division by the converted
    length.  For a delay line of capacity zero C stores an infinity (or a
    NaN) there, which [Q] does not have: the model then holds [0], a value
    that nothing reads, as a control update of such a channel is undefined
    ([stage2_phase]). *)
Definition setup_ratio (c : agc) (ratio_db : float) : agc :=
  let c := set_ratio (powf 10 (round_f32 (ratio_db / 20))) c in
  set_gain_interval_amount (round_f32 (ratio c / float_of_int (buffer_len c))) c.

(** The coefficients of an RC filter of cutoff [fCutoff] and resonance
    [q] at sample rate [rate]; the source writes these three formulas out
    in each setup function and twice in [agc_init]. *)
Definition RC_coefficients (rate : Z) (fCutoff q : float) : Coe.t :=
  let f := fCutoff in
  let a := 1 - (1 / float_of_int rate) / ((1 / (f * 2 * M_PI)) + (1 / float_of_int rate)) in
  let b := 1 - a in
  let c := (1 / (f * 2 * M_PI)) / ((1 / (f * 2 * M_PI)) + (1 / float_of_int rate)) in
  Coe.mk a b c f q.

Definition setup_subsonic (c : agc) (fCutoff : float) : agc :=
  set_RC_HPF_initial
    (arr4_map (set_coe (RC_coefficients (sRate c) fCutoff 0.375)) (RC_HPF_initial c)) c.

Definition setup_lfdetail (c : agc) (multi fCutoff : float) : agc :=
  let c := set_lf_detail multi c in
  set_RC_LPF_detail (set_coe (RC_coefficients (sRate c) fCutoff 0.375) (RC_LPF_detail c)) c.

Definition setup_hfdetail (c : agc) (multi fCutoff : float) : agc :=
  let c := set_hf_detail multi c in
  set_RC_HPF_detail (set_coe (RC_coefficients (sRate c) fCutoff 0.375) (RC_HPF_detail c)) c.

(** ** Stereo linking *)

Definition agc_set_as_partners (h : heap) (agc1 agc2 : ptr) : option heap :=
  c1 ← h !! agc1;
  let h := <[agc1 := set_partner agc2 c1]> h in
  c2 ← h !! agc2;
  Some (<[agc2 := set_partner agc1 c2]> h).

Definition agc_set_partnered_mode (h : heap) (s : ptr) (boolean : Z) : option heap :=
  c ← h !! s;
  if (boolean =? 0)%Z then Some (<[s := set_host s c]> h)
  else Some (<[s := set_host (partner c) c]> h).

(** ** agc_init and agc_free *)

(** The address of a new block: not [NULL] and not in use. *)
Definition new_ptr (h : heap) : ptr := fresh ({[NULL]} ∪ dom h).

(** The channel [agc_init] builds at the address [s] of the block it got:
    [None] when the delay line cannot be allocated. *)
Definition init_channel (s : ptr) (rate : Z) (lookahead : float) : option agc :=
  let c := agc_zero in
  let c := set_sRate rate c in
  let c := set_buffer_len
             (int_of_float (round_f32 (float_of_int (sRate c) * lookahead))) c in
  if (buffer_len c <? 0)%Z || negb (calloc_floats (buffer_len c)) then None
  else
    let c := set_buffer (replicate (Z.to_nat (buffer_len c)) 0) c in
    let c := set_partner s c in
    let c := set_host (partner c) c in
    (* determine the phase points for the envelope followers *)
    let p4 := wrap_int (buffer_len c * 2) in
    let c := set_RR_reset_point
               (Arr4 0%Z
                  (Z.quot (wrap_int (p4 * 1)) 4)
                  (Z.quot (wrap_int (p4 * 2)) 4)
                  (Z.quot (wrap_int (p4 * 3)) 4)) c in
    let c := setup_ratio c 3 in          (* 3:1 "compression" *)
    let c := set_limit 0.707 c in        (* signal level to top out at *)
    let c := set_in_pos (wrap_int (buffer_len c - 1)) c in
    let c := set_out_pos 1 c in
    let c := set_gain 0 c in
    let c := set_nr_onthres 0.1 c in     (* silence detection level *)
    let c := set_nr_offthres 0.1001 c in (* non-silence detection level *)
    let c := set_nr_gain 0.5 c in        (* if silence detected reduce gain by 6dB *)
    let c := set_ds_bias 0.35 c in
    let c := set_ds_gain 0.5 c in        (* attenuate signal by this amount *)
    let c := set_meter_green 1 c in
    let c := set_meter_yellow 1 c in
    let c := set_meter_red 1 c in
    (* setup coefficients for the ducker *)
    let c := set_ducker_release (1 / (0.250 * float_of_int (sRate c))) c in
    let c := set_ducker_attack (1 / float_of_int (buffer_len c)) c in
    let c := set_ducker_hold_timer_resetval
               (int_of_float (0.500 * float_of_int (sRate c))) c in
    let c := set_df 1 c in
    let c := setup_subsonic c 100 in
    let c := set_hpstages 4 c in
    let c := setup_hfdetail c 4 2000 in
    let c := setup_lfdetail c 4 150 in
    (* setup coefficients for the phase rotator *)
    let c := set_use_phaserotator 1 c in
    let c := set_RC_PHR
               (arr4_map (set_coe (RC_coefficients (sRate c) 300 0)) (RC_PHR c)) c in
    (* setup coefficients for the de-esser-sidechain highpass/lowpass filter *)
    let c := set_RC_F_DS (set_coe (RC_coefficients (sRate c) 1000 1) (RC_F_DS c)) c in
    Some c.

(** [None] is the [NULL] the source returns when an allocation fails. *)
Definition agc_init (h : heap) (rate : Z) (lookahead : float) : option (heap * ptr) :=
  if negb calloc_agc then None
  else
    let s := new_ptr h in
    c ← init_channel s rate lookahead;
    Some (<[s := c]> h, s).

Definition agc_free (h : heap) (s : ptr) : option heap :=
  _ ← h !! s;
  Some (delete s h).

(** ** agc_valueparse *)

(** [value[0] == '1'] *)
Definition first_is_1 (value : string) : Z :=
  match value with
  | String "1"%char _ => 1%Z
  | _ => 0%Z
  end.

(** [!strcmp(key, name)] *)
Definition key_is (key name : string) : bool := String.eqb key name.

Definition valueparse (c : agc) (key value : string) : agc :=
  if key_is key "phaserotate" then set_use_phaserotator (first_is_1 value) c
  else if key_is key "gain" then setup_ratio c (strtof value)
  else if key_is key "limit" then set_limit (powf 2 (strtof value / 6)) c
  else if key_is key "ngthresh" then
    let c := set_nr_onthres (powf 2 ((strtof value - 1) / 6)) c in
    set_nr_offthres (powf 2 ((strtof value + 1) / 6)) c
  else if key_is key "nggain" then set_nr_gain (powf 2 (strtof value / 6)) c
  else if key_is key "duckenable" then set_use_ducker (first_is_1 value) c
  else if key_is key "duckrelease" then
    set_ducker_release (1000 / (strtof value * float_of_int (sRate c))) c
  else if key_is key "duckhold" then
    set_ducker_hold_timer_resetval (Z.quot (wrap_int (atoi value * sRate c)) 1000) c
  else if key_is key "deessbias" then set_ds_bias (strtof value) c
  else if key_is key "deessgain" then set_ds_gain (powf 2 (strtof value / 6)) c
  else if key_is key "hpcutoff" then setup_subsonic c (strtof value)
  else
    (* the "hpstages" branch has no return: control falls through to the
       remaining comparisons *)
    let c := if key_is key "hpstages"
             then set_hpstages (int_of_float (strtof value + 0.5)) c else c in
    if key_is key "hfmulti" then
      setup_hfdetail c (strtof value) (Coe.f (coe (RC_HPF_detail c)))
    else if key_is key "hfcutoff" then setup_hfdetail c (hf_detail c) (strtof value)
    else if key_is key "lfmulti" then
      setup_lfdetail c (strtof value) (Coe.f (coe (RC_LPF_detail c)))
    else if key_is key "lfcutoff" then setup_lfdetail c (lf_detail c) (strtof value)
    else c.

Definition agc_valueparse (h : heap) (s : ptr) (key value : string) : option heap :=
  c ← h !! s;
  Some (<[s := valueparse c key value]> h).

(** ** Sequences of calls *)

Inductive call : Type :=
| Init (rate : Z) (lookahead : float)
| Free (s : ptr)
| SetAsPartners (agc1 agc2 : ptr)
| SetPartneredMode (s : ptr) (boolean : Z)
| Stage1 (s : ptr) (inp : float)
| Stage2 (s : ptr) (mic_is_mute : Z)
| Stage3 (s : ptr)
| ResetStats (s : ptr)
| ValueParse (s : ptr) (key value : string).

(** One call on the heap.  A failed [agc_init] returns [NULL] and leaves
    the heap as it was. *)
Definition exec (h : heap) (k : call) : option heap :=
  match k with
  | Init rate lookahead =>
      match agc_init h rate lookahead with
      | Some (h', _) => Some h'
      | None => Some h
      end
  | Free s => agc_free h s
  | SetAsPartners agc1 agc2 => agc_set_as_partners h agc1 agc2
  | SetPartneredMode s boolean => agc_set_partnered_mode h s boolean
  | Stage1 s inp => agc_process_stage1 h s inp
  | Stage2 s mic_is_mute => agc_process_stage2 h s mic_is_mute
  | Stage3 s => _ ← agc_process_stage3 h s; Some h
  | ResetStats s => agc_reset_stats h s
  | ValueParse s key value => agc_valueparse h s key value
  end.

Fixpoint run (h : heap) (ks : list call) : option heap :=
  match ks with
  | [] => Some h
  | k :: ks' => h' ← exec h k; run h' ks'
  end.

End WithLibc.

(** ** A C library to run the code on

    Rational stand-ins for the library functions, used to evaluate the
    code on concrete calls: [strtof] and [atoi] read plain decimal
    numerals; [powf] is exact at integral exponents and interpolates
    linearly between them; [log10f] is its inverse for base ten; every
    allocation succeeds. *)
Module RefLibc.

Definition digit (ch : ascii) : option Z :=
  let n := Z.of_nat (nat_of_ascii ch) in
  if ((48 <=? n) && (n <=? 57))%Z then Some (n - 48)%Z else None.

(** The leading decimal digits of [str] appended to [acc]; returns the
    number read, the count of digits and the rest of the string. *)
Fixpoint digits (str : string) (acc : Z) (count : nat) : Z * nat * string :=
  match str with
  | String ch rest =>
      match digit ch with
      | Some d => digits rest (10 * acc + d)%Z (S count)
      | None => (acc, count, str)
      end
  | EmptyString => (acc, count, str)
  end.

Definition sign (str : string) : bool * string :=
  match str with
  | String "-"%char rest => (true, rest)
  | String "+"%char rest => (false, rest)
  | _ => (false, str)
  end.

Definition atoi (str : string) : Z :=
  let '(neg, str) := sign str in
  let '(n, _, _) := digits str 0 O in
  wrap_int (if neg then - n else n).

Definition strtof (str : string) : float :=
  let '(neg, str) := sign str in
  let '(n, _, rest) := digits str 0 O in
  let x :=
    match rest with
    | String "."%char frac =>
        let '(m, k, _) := digits frac 0 O in
        inject_Z n + inject_Z m / inject_Z (10 ^ Z.of_nat k)
    | _ => inject_Z n
    end in
  if neg then - x else x.

Definition powf (x y : float) : float :=
  let n := Qfloor y in
  Qpower x n * (1 + (y - inject_Z n) * (x - 1)).

(** [log10f x] for [1 <= x]: strip factors of ten, then interpolate. *)
Fixpoint log10_up (fuel : nat) (x : float) : float :=
  match fuel with
  | O => 0
  | S fuel' => if x <.? 10 then (x - 1) / 9 else 1 + log10_up fuel' (x / 10)
  end.

(** [log10f x] for [0 < x < 1]. *)
Fixpoint log10_down (fuel : nat) (x : float) : float :=
  match fuel with
  | O => 0
  | S fuel' => if x <.? 1 then log10_down fuel' (x * 10) - 1 else (x - 1) / 9
  end.

Definition log10f (x : float) : float :=
  if x <.? 1 then log10_down (Pos.to_nat (Qden x)) x
  else log10_up (Z.to_nat (Qnum x)) x.

Definition libc : Libc := Build_Libc powf log10f strtof atoi true (fun _ => true).

End RefLibc.


(** * Notions used in the statements *)

(** The fields of a channel that a control update ([agc_process_stage2])
    has no assignment to. *)
Definition stage2_untouched (c : agc) :=
  (host c, partner c, input c, ratio c, limit c, nr_gain c, nr_onthres c,
   nr_offthres c, gain_interval_amount c, buffer c, buffer_len c, sRate c,
   in_pos c, out_pos c, DC c, ds_bias c, ds_gain c, RR_reset_point c,
   use_ducker c, ducker_attack c, ducker_release c,
   ducker_hold_timer_resetval c, RC_HPF_initial c, hpstages c, hf_detail c,
   RC_HPF_detail c, lf_detail c, RC_LPF_detail c, use_phaserotator c,
   RC_PHR c, coe (RC_F_DS c)).

(** The fields of a channel that [agc_process_stage1] has no assignment
    to: everything but the filter variables, the stored sample, the delay
    line and the two cursors. *)
Definition stage1_untouched (c : agc) :=
  (host c, partner c, ratio c, limit c, nr_gain c, nr_onthres c,
   nr_offthres c, gain_interval_amount c, nr_state c, buffer_len c, sRate c,
   gain c, DC c, ds_bias c, ds_gain c, ds_state c, RR_reset_point c,
   RR_signal c, RR_DS_high c, RR_DS_low c, use_ducker c, df c,
   ducker_attack c, ducker_release c, ducker_hold_timer c,
   ducker_hold_timer_resetval c, meter_red c, meter_yellow c, meter_green c,
   arr4_map coe (RC_HPF_initial c), hpstages c, hf_detail c,
   coe (RC_HPF_detail c), lf_detail c, coe (RC_LPF_detail c),
   use_phaserotator c, arr4_map coe (RC_PHR c), RC_F_DS c).

(** The running state of a channel, which no parameter update writes:
    links, delay line and cursors, applied gain, the variables of every
    filter, the latches, the envelope followers, the ducker and the meters. *)
Definition running_state (c : agc) :=
  (host c, partner c, input c, buffer c, buffer_len c, sRate c, in_pos c,
   out_pos c, gain c, DC c, nr_state c, ds_state c, RR_reset_point c,
   RR_signal c, RR_DS_high c, RR_DS_low c, df c, ducker_attack c,
   ducker_hold_timer c, meter_red c, meter_yellow c, meter_green c,
   arr4_map var (RC_HPF_initial c), var (RC_HPF_detail c),
   var (RC_LPF_detail c), arr4_map var (RC_PHR c), var (RC_F_DS c)).

(** The keys [agc_valueparse] compares its argument with. *)
Definition recognized_keys : list string :=
  ["phaserotate"; "gain"; "limit"; "ngthresh"; "nggain"; "duckenable";
   "duckrelease"; "duckhold"; "deessbias"; "deessgain"; "hpcutoff";
   "hpstages"; "hfmulti"; "hfcutoff"; "lfmulti"; "lfcutoff"]%string.

(** The envelope level and the target gain of a control update: the
    values of [amp] and of [factor] where the source modulates the gain. *)
Definition stage2_level (c : agc) (inp : float) (phase : Z) : float :=
  snd (snd (stage2_follow c phase inp)).

Definition stage2_target (c : agc) (inp : float) (phase : Z) : float :=
  let '(c, (ds_amph, ds_ampl, amp)) := stage2_follow c phase inp in
  let '(_, factor, _) := stage2_factor c ds_amph ds_ampl amp in
  factor.

(** The same two values for the update [agc_process_stage2 h s] performs. *)
Definition level_at (h : heap) (s : ptr) : option float :=
  c ← h !! s;
  p ← h !! partner c;
  phase ← stage2_phase c;
  Some (stage2_level c (stage2_input s c p) phase).

Definition target_at (h : heap) (s : ptr) : option float :=
  c ← h !! s;
  p ← h !! partner c;
  phase ← stage2_phase c;
  Some (stage2_target c (stage2_input s c p) phase).


(** The two factors of [agc_process_stage3]'s product: the delayed sample
    of the channel's own delay line and the gain of its host. *)
Definition stage3_sample (c : agc) : option float :=
  i ← ring_index c (out_pos c);
  buffer c !! i.

Definition stage3_gain (h : heap) (s : ptr) : option float :=
  c ← h !! s;
  hst ← h !! host c;
  Some (gain hst).

(** [agc_set_as_partners(a, b)] followed by [agc_set_partnered_mode(b, boolean)]. *)
Definition link_to (h : heap) (a b : ptr) (boolean : Z) : option heap :=
  h1 ← agc_set_as_partners h a b;
  agc_set_partnered_mode h1 b boolean.

(** Heaps to evaluate on: one channel, and two channels, as
    [agc_init (48000, 0.01)] builds them with the library [RefLibc]. *)
Definition one_channel : heap :=
  default ∅ (run (libc := RefLibc.libc) ∅ [Init 48000 0.01]).

Definition two_channels : heap :=
  default ∅ (run (libc := RefLibc.libc) ∅ [Init 48000 0.01; Init 48000 0.01]).

Definition channel_at (h : heap) (s : ptr) : agc := default agc_zero (h !! s).


(** The noise gate as a function of its thresholds, its state and the
    level: closed ([1]) below the onset, then open ([0]) above the offset. *)
Definition gate_next (on off : float) (state : Z) (level : float) : Z :=
  let state := if level <.? on then 1%Z else state in
  if level >.? off then 0%Z else state.

(** The de-esser latch in the same way. *)
Definition de_esser_next (bias : float) (state : Z) (ds_amph ds_ampl : float) : Z :=
  let state := if ds_amph * bias >.? ds_ampl * 1.3333333 then 1%Z else state in
  if ds_amph * bias <.? ds_ampl * 0.75 then 0%Z else state.

(** The applied gain after one update toward the target [factor]. *)
Definition gain_next (g step factor : float) : float :=
  let g := if g <.? factor then round_f32 (g + step) else g in
  if g >.? factor then round_f32 (g - step) else g.

(** What the ducker reads of a channel. *)
Definition ducker_inputs (c : agc) :=
  (use_ducker c, df c, ducker_attack c, ducker_release c, limit c,
   ducker_hold_timer c, ducker_hold_timer_resetval c).


(** What the statements ask of the library's [powf]: it is non-negative
    on a positive base, and monotone in the exponent for base two. *)
Definition powf_nonneg (libc : Libc) : Prop :=
  forall x y : float, 0 < x -> 0 <= powf x y.









(** The heap after one control update of the single channel. *)
Definition one_channel_updated : heap :=
  default ∅ (agc_process_stage2 one_channel 1 0).




(** The largest magnitude of a list of samples. *)
Fixpoint peak (xs : list float) : float :=
  match xs with
  | [] => 0
  | x :: xs' => Qmax (Qabs x) (peak xs')
  end.




Definition max4 (v : arr4 float) : float :=
  Qmax (Qmax (Qmax (at0 v) (at1 v)) (at2 v)) (at3 v).



(** A run that drives the ducking factor below zero: a channel with a
    one-sample delay line, the ducker enabled, the limit raised to
    +18 dB, the filters of the signal path switched off and one loud
    sample; then two control updates. *)
Definition ducking_setup : list call :=
  [Init 8000 0.000244140625;
   ValueParse 1 "duckenable" "1";
   ValueParse 1 "limit" "18";
   ValueParse 1 "hpstages" "0";
   ValueParse 1 "phaserotate" "0";
   ValueParse 1 "hfmulti" "0";
   ValueParse 1 "lfmulti" "0";
   Stage1 1 100].

Definition ducking_start : heap :=
  default ∅ (run (libc := RefLibc.libc) ∅ ducking_setup).

Definition ducking_calls : list call := ducking_setup ++ [Stage2 1 0; Stage2 1 0].


(** A run on which one control update moves the gain by more than
    [ratio / buffer_len]: a channel of 480 samples, the ratio set to
    20 dB (that is 10), the filters of the signal path switched off and
    one silent sample; then the control update. *)
Definition ramp_setup : list call :=
  [Init 48000 0.01;
   ValueParse 1 "gain" "20";
   ValueParse 1 "hpstages" "0";
   ValueParse 1 "phaserotate" "0";
   ValueParse 1 "hfmulti" "0";
   ValueParse 1 "lfmulti" "0";
   Stage1 1 0].

Definition ramp_start : heap :=
  default ∅ (run (libc := RefLibc.libc) ∅ ramp_setup).

Definition ramp_updated : heap :=
  default ∅ (agc_process_stage2 ramp_start 1 0).

(** * Properties *)

(** ** Scalars *)

Lemma fltb_lt (x y : float) : (x <.? y) = true <-> x < y.
Proof.
  unfold fltb. rewrite Qlt_alt. destruct (x ?= y); split; congruence.
Qed.

Lemma fltb_ge (x y : float) : (x <.? y) = false <-> y <= x.
Proof.
  rewrite <- not_true_iff_false, fltb_lt. split; [apply Qnot_lt_le | apply Qle_not_lt].
Qed.

Lemma fgtb_gt (x y : float) : (x >.? y) = true <-> y < x.
Proof. apply fltb_lt. Qed.

Lemma fgtb_le (x y : float) : (x >.? y) = false <-> x <= y.
Proof. apply fltb_ge. Qed.

(** Case analysis on the float comparisons of a goal. *)
Ltac fcases :=
  repeat match goal with
    | |- context [?x <.? ?y] =>
        let E := fresh "E" in
        destruct (x <.? y) eqn:E; [apply fltb_lt in E | apply fltb_ge in E]
    | |- context [?x >.? ?y] =>
        let E := fresh "E" in
        destruct (x >.? y) eqn:E; [apply fgtb_gt in E | apply fgtb_le in E]
    end.

(** *** Rounding to binary32 *)

Lemma pow2_pos (k : Z) : 0 < pow2 k.
Proof. apply Qpower_0_lt. reflexivity. Qed.


Lemma pow2_le (a b : Z) : (a <= b)%Z -> pow2 a <= pow2 b.
Proof. intros H. apply Qpower_le_compat_l; [exact H | discriminate]. Qed.

Lemma pow2_inject (n : Z) : (0 <= n)%Z -> pow2 n == inject_Z (2 ^ n).
Proof. intros H. unfold pow2. rewrite Zpower_Qpower by exact H. reflexivity. Qed.

Lemma Qlog2_le (x : float) : 0 < x -> pow2 (Qlog2 x) <= x.
Proof.
  intros Hx. unfold Qlog2.
  set (k := (Z.log2 (Qnum x) - Z.log2 (Zpos (Qden x)))%Z).
  destruct (x <.? pow2 k) eqn:E; [| apply fltb_ge in E; exact E].
  clear E. destruct x as [n d]. cbn [Qnum Qden] in *.
  assert (Hn : (0 < n)%Z) by (unfold Qlt in Hx; cbn in Hx; lia).
  pose proof (Z.log2_spec n Hn) as [Ha _].
  pose proof (Z.log2_spec (Zpos d) ltac:(lia)) as [_ Hb].
  pose proof (Z.log2_nonneg n) as Ha0. pose proof (Z.log2_nonneg (Zpos d)) as Hb0.
  set (a := Z.log2 n) in *. set (b := Z.log2 (Zpos d)) in *.
  assert (Hk : (k - 1 = a - (b + 1))%Z) by (unfold k; lia).
  rewrite Hk. unfold pow2. rewrite Qpower_minus by discriminate.
  fold (pow2 a). fold (pow2 (b + 1)).
  rewrite (pow2_inject a), (pow2_inject (b + 1)) by lia.
  apply Qle_shift_div_r.
  - change 0 with (inject_Z 0). rewrite <- Zlt_Qlt. lia.
  - unfold Qle, Qmult, inject_Z. cbn [Qnum Qden].
    rewrite Z.mul_1_r, Pos.mul_1_r.
    apply Z.mul_le_mono_nonneg; lia.
Qed.


Lemma round_half_even_nonneg (x : float) : 0 <= x -> (0 <= round_half_even x)%Z.
Proof.
  intros Hx. unfold round_half_even.
  assert (H0 : (0 <= Qfloor x)%Z) by (change 0%Z with (Qfloor 0); apply Qfloor_resp_le; exact Hx).
  destruct (Qcompare _ _); [destruct (Z.even _) |..]; lia.
Qed.

Lemma round_half_even_inject_Z (x : float) (z : Z) : x == inject_Z z -> round_half_even x = z.
Proof.
  intros Hx. unfold round_half_even.
  assert (Hf : Qfloor x = z) by (rewrite Hx; apply Qfloor_Z).
  rewrite Hf.
  assert (E : Qcompare (x - inject_Z z) (1 # 2) = Lt).
  { apply Qlt_alt. assert (H0 : x - inject_Z z == 0) by (rewrite Hx; ring).
    rewrite H0. reflexivity. }
  rewrite E. reflexivity.
Qed.

Lemma Qred_inject_Z (z : Z) : Qred (inject_Z z) = inject_Z z.
Proof.
  unfold Qred, inject_Z.
  pose proof (Z.ggcd_gcd z 1) as Hg. pose proof (Z.ggcd_correct_divisors z 1) as Hd.
  destruct (Z.ggcd z 1) as [g [a b]]. cbn [fst snd] in *.
  rewrite Z.gcd_1_r in Hg. subst g. destruct Hd as [Ha Hb].
  rewrite Z.mul_1_l in Ha, Hb. subst. reflexivity.
Qed.


Lemma round_f32_eq (x : float) :
  round_f32 x == inject_Z (round_half_even (Qred x / pow2 (f32_exponent (Qred x))))
                 * pow2 (f32_exponent (Qred x)).
Proof. unfold round_f32. apply Qred_correct. Qed.

Lemma round_f32_nonneg (x : float) : 0 <= x -> 0 <= round_f32 x.
Proof.
  intros Hx. rewrite round_f32_eq.
  pose proof (pow2_pos (f32_exponent (Qred x))) as Hp.
  apply Qmult_le_0_compat; [| lra].
  change 0 with (inject_Z 0). rewrite <- Zle_Qle. apply round_half_even_nonneg.
  apply Qle_shift_div_l; [exact Hp |]. rewrite Qmult_0_l, Qred_correct. exact Hx.
Qed.




Lemma pow2_opp (e : Z) : pow2 (- e) == / pow2 e.
Proof. apply Qpower_opp. Qed.

Lemma Qlog2_lt (x : float) (k : Z) : 0 < x -> x < pow2 k -> (Qlog2 x < k)%Z.
Proof.
  intros Hx Hk. destruct (Z_lt_le_dec (Qlog2 x) k) as [H | H]; [exact H |].
  pose proof (Qlog2_le x Hx) as Hl. pose proof (pow2_le _ _ H). lra.
Qed.

(** An integer of magnitude below 2^24 is a binary32 number. *)
Lemma round_f32_inject_Z (z : Z) :
  (Z.abs z < 2 ^ 24)%Z -> round_f32 (inject_Z z) = inject_Z z.
Proof.
  intros Hz. unfold round_f32. rewrite Qred_inject_Z.
  transitivity (Qred (inject_Z z)); [apply Qred_complete | apply Qred_inject_Z].
  set (e := f32_exponent (inject_Z z)).
  assert (He : (e <= 0)%Z).
  { unfold e, f32_exponent.
    destruct (Z.eq_dec z 0%Z) as [-> | Hne]; [vm_compute; discriminate |].
    assert (Hpos : 0 < Qabs (inject_Z z)).
    { apply Qabs_case; intros H; [| apply Qopp_le_compat in H; change (- 0) with 0 in H].
      - apply Qle_lteq in H as [H | H]; [exact H |].
        exfalso. apply Hne. symmetry in H. unfold Qeq in H. cbn in H. lia.
      - rewrite <- inject_Z_opp in *. change 0 with (inject_Z 0) in *.
        rewrite <- Zlt_Qlt. rewrite <- Zle_Qle in H. lia. }
    assert (Hlt : Qabs (inject_Z z) < pow2 24).
    { rewrite (pow2_inject 24) by lia.
      apply Qabs_case; intros _; [| rewrite <- inject_Z_opp]; rewrite <- Zlt_Qlt; lia. }
    pose proof (Qlog2_lt _ 24 Hpos Hlt). lia. }
  pose proof (pow2_pos e) as Hp.
  assert (Hy : inject_Z z / pow2 e == inject_Z (z * 2 ^ (- e))).
  { rewrite inject_Z_mult, <- (pow2_inject (- e)) by lia. rewrite pow2_opp. reflexivity. }
  rewrite (round_half_even_inject_Z _ _ Hy).
  rewrite inject_Z_mult, <- (pow2_inject (- e)) by lia. rewrite pow2_opp. field. lra.
Qed.

Lemma float_of_int_small (z : Z) : (Z.abs z < 2 ^ 24)%Z -> float_of_int z = inject_Z z.
Proof. apply round_f32_inject_Z. Qed.

Lemma float_of_int_nonneg (z : Z) : (0 <= z)%Z -> 0 <= float_of_int z.
Proof.
  intros Hz. apply round_f32_nonneg. change 0 with (inject_Z 0). rewrite <- Zle_Qle. exact Hz.
Qed.

Lemma wrap_int_id (z : Z) : (INT_MIN <= z <= INT_MAX)%Z -> wrap_int z = z.
Proof.
  unfold wrap_int, INT_MIN, INT_MAX. intros Hz.
  rewrite Z.mod_small; lia.
Qed.

Lemma wrap_int_range (z : Z) : (INT_MIN <= wrap_int z <= INT_MAX)%Z.
Proof.
  unfold wrap_int, INT_MIN, INT_MAX.
  pose proof (Z.mod_pos_bound (z + 2 ^ 31) (2 ^ 32) ltac:(lia)). lia.
Qed.

Lemma wrap_int_mod (z : Z) : (wrap_int z mod 2 ^ 32 = z mod 2 ^ 32)%Z.
Proof.
  unfold wrap_int.
  rewrite <- Zminus_mod_idemp_l, Z.mod_mod by lia.
  rewrite Zminus_mod_idemp_l. f_equal. lia.
Qed.

Lemma int_of_float_range (x : float) : (INT_MIN <= int_of_float x <= INT_MAX)%Z.
Proof.
  unfold int_of_float.
  destruct ((INT_MIN <=? Qtrunc x) && (Qtrunc x <=? INT_MAX))%Z eqn:E.
  - apply andb_prop in E as [E1 E2]. lia.
  - unfold INT_MIN, INT_MAX. lia.
Qed.

Lemma int_of_float_trunc (x : float) : (0 <= int_of_float x)%Z -> int_of_float x = Qtrunc x.
Proof.
  unfold int_of_float.
  destruct ((INT_MIN <=? Qtrunc x) && (Qtrunc x <=? INT_MAX))%Z; [reflexivity |].
  unfold INT_MIN. lia.
Qed.

Lemma Qtrunc_inject_Z (z : Z) : Qtrunc (inject_Z z) = z.
Proof. unfold Qtrunc, inject_Z. simpl. apply Z.quot_1_r. Qed.

(** An [int] of magnitude below 2^24 survives the round trip through [float]. *)
Lemma int_of_float_of_int (z : Z) :
  (Z.abs z < 2 ^ 24)%Z -> int_of_float (float_of_int z) = z.
Proof.
  intros Hz. rewrite float_of_int_small by exact Hz.
  unfold int_of_float. rewrite Qtrunc_inject_Z.
  destruct ((INT_MIN <=? z) && (z <=? INT_MAX))%Z eqn:E; [reflexivity |].
  unfold INT_MIN, INT_MAX in E. apply andb_false_iff in E as [E | E]; lia.
Qed.

(** For a non-negative float, truncation is the floor. *)
Lemma Qtrunc_nonneg (x : float) : 0 <= x -> Qtrunc x = Qfloor x.
Proof.
  intros Hx. unfold Qtrunc, Qfloor. destruct x as [n d]. simpl.
  assert (0 <= n)%Z by (unfold Qle in Hx; simpl in Hx; lia).
  apply Z.quot_div_nonneg; lia.
Qed.

Lemma Qtrunc_zero (x : float) : x == 0 -> Qtrunc x = 0%Z.
Proof.
  intros Hx. unfold Qtrunc. destruct x as [n d].
  unfold Qeq in Hx. simpl in *. assert (n = 0)%Z by lia. subst. reflexivity.
Qed.

(** ** Invariants of the channels of a heap *)

(** Undo the option monad in a hypothesis [m ≫= k = Some x]. *)
Ltac inv_bind H :=
  repeat match type of H with
    | (match ?m with Some _ => _ | None => _ end) = Some _ =>
        let E := fresh "E" in destruct m eqn:E; [| discriminate H]
    | (?m ≫= _) = Some _ =>
        let E := fresh "E" in
        destruct m eqn:E; [cbn [mbind option_bind] in H | discriminate H]
    | (if ?b then _ else _) = Some _ =>
        let E := fresh "E" in destruct b eqn:E
    | None = Some _ => discriminate H
    end.

Section Preservation.
Context {libc : Libc}.
Variable P : agc -> Prop.
Hypothesis P_init : forall s rate la c, init_channel s rate la = Some c -> P c.
Hypothesis P_partner : forall p c, P c -> P (set_partner p c).
Hypothesis P_host : forall p c, P c -> P (set_host p c).
Hypothesis P_stage1 : forall hst c x c', P c -> stage1 hst c x = Some c' -> P c'.
Hypothesis P_stage2 : forall c x phase m, P c -> P (stage2_host c x phase m).
Hypothesis P_reset : forall c, P c -> P (reset_stats c).
Hypothesis P_valueparse : forall c k v, P c -> P (valueparse c k v).

Lemma exec_preserves (h h' : heap) (k : call) :
  map_Forall (fun _ => P) h -> exec h k = Some h' -> map_Forall (fun _ => P) h'.
Proof.
  intros Hh Hk. destruct k; cbn [exec] in Hk.
  - destruct (agc_init h rate lookahead) as [[h1 s] |] eqn:Hi.
    + inversion Hk; subst. unfold agc_init in Hi. inv_bind Hi.
      inversion Hi; subst. apply map_Forall_insert_2; [| exact Hh].
      eapply P_init. eassumption.
    + inversion Hk; subst. assumption.
  - unfold agc_free in Hk. inv_bind Hk. inversion Hk; subst.
    intros i x Hx. apply lookup_delete_Some in Hx as [_ Hx]. exact (Hh i x Hx).
  - unfold agc_set_as_partners in Hk. inv_bind Hk. inversion Hk; subst.
    apply map_Forall_insert_2.
    + apply P_partner.
      destruct (decide (agc1 = agc2)) as [-> | Hne].
      * rewrite lookup_insert_eq in E0. inversion E0; subst.
        apply P_partner. exact (Hh _ _ E).
      * rewrite lookup_insert_ne in E0 by done. exact (Hh _ _ E0).
    + apply map_Forall_insert_2; [| exact Hh]. apply P_partner. exact (Hh _ _ E).
  - unfold agc_set_partnered_mode in Hk. inv_bind Hk; inversion Hk; subst;
      (apply map_Forall_insert_2; [| exact Hh]); apply P_host; exact (Hh _ _ E).
  - unfold agc_process_stage1 in Hk. inv_bind Hk. inversion Hk; subst.
    apply map_Forall_insert_2; [| exact Hh].
    eapply P_stage1; [exact (Hh _ _ E) | eassumption].
  - unfold agc_process_stage2 in Hk. inv_bind Hk; inversion Hk; subst.
    + apply map_Forall_insert_2; [| exact Hh]. apply P_stage2. exact (Hh _ _ E).
    + assumption.
  - inv_bind Hk. inversion Hk; subst. assumption.
  - unfold agc_reset_stats in Hk. inv_bind Hk. inversion Hk; subst.
    apply map_Forall_insert_2; [| exact Hh]. apply P_reset. exact (Hh _ _ E).
  - unfold agc_valueparse in Hk. inv_bind Hk. inversion Hk; subst.
    apply map_Forall_insert_2; [| exact Hh]. apply P_valueparse. exact (Hh _ _ E).
Qed.

Lemma run_preserves (ks : list call) (h h' : heap) :
  map_Forall (fun _ => P) h -> run h ks = Some h' -> map_Forall (fun _ => P) h'.
Proof.
  revert h. induction ks as [| k ks IH]; intros h Hh Hr; cbn [run] in Hr.
  - inversion Hr; subst. assumption.
  - inv_bind Hr. eapply IH; [| eassumption]. eapply exec_preserves; eassumption.
Qed.

Lemma reachable_invariant (ks : list call) (h : heap) (s : ptr) (c : agc) :
  run ∅ ks = Some h -> h !! s = Some c -> P c.
Proof.
  intros Hr Hs.
  exact (run_preserves ks ∅ h (map_Forall_empty _) Hr s c Hs).
Qed.

End Preservation.

(** ** What each operation leaves alone *)

Ltac split_pairs :=
  repeat match goal with
    | |- context [let '(_, _) := ?e in _] =>
        let a := fresh "r" in let b := fresh "r" in destruct e as [a b]
    end.

(** Reduce the field projections of assigned channels, and nothing else. *)
Ltac fields :=
  cbn [
    host partner input ratio limit nr_gain nr_onthres nr_offthres
    gain_interval_amount nr_state buffer buffer_len sRate in_pos out_pos
    gain DC ds_bias ds_gain ds_state RR_reset_point RR_signal RR_DS_high
    RR_DS_low use_ducker df ducker_attack ducker_release ducker_hold_timer
    ducker_hold_timer_resetval meter_red meter_yellow meter_green
    RC_HPF_initial hpstages hf_detail RC_HPF_detail lf_detail RC_LPF_detail
    use_phaserotator RC_PHR RC_F_DS set_host set_partner set_input set_ratio
    set_limit set_nr_gain set_nr_onthres set_nr_offthres
    set_gain_interval_amount set_nr_state set_buffer set_buffer_len
    set_sRate set_in_pos set_out_pos set_gain set_ds_bias set_ds_gain
    set_ds_state set_RR_reset_point set_RR_signal set_RR_DS_high
    set_RR_DS_low set_use_ducker set_df set_ducker_attack set_ducker_release
    set_ducker_hold_timer set_ducker_hold_timer_resetval set_meter_red
    set_meter_yellow set_meter_green set_RC_HPF_initial set_hpstages
    set_hf_detail set_RC_HPF_detail set_lf_detail set_RC_LPF_detail
    set_use_phaserotator set_RC_PHR set_RC_F_DS coe var set_coe set_var fst
    snd ].

Ltac fields_in H :=
  cbn [
    host partner input ratio limit nr_gain nr_onthres nr_offthres
    gain_interval_amount nr_state buffer buffer_len sRate in_pos out_pos
    gain DC ds_bias ds_gain ds_state RR_reset_point RR_signal RR_DS_high
    RR_DS_low use_ducker df ducker_attack ducker_release ducker_hold_timer
    ducker_hold_timer_resetval meter_red meter_yellow meter_green
    RC_HPF_initial hpstages hf_detail RC_HPF_detail lf_detail RC_LPF_detail
    use_phaserotator RC_PHR RC_F_DS set_host set_partner set_input set_ratio
    set_limit set_nr_gain set_nr_onthres set_nr_offthres
    set_gain_interval_amount set_nr_state set_buffer set_buffer_len
    set_sRate set_in_pos set_out_pos set_gain set_ds_bias set_ds_gain
    set_ds_state set_RR_reset_point set_RR_signal set_RR_DS_high
    set_RR_DS_low set_use_ducker set_df set_ducker_attack set_ducker_release
    set_ducker_hold_timer set_ducker_hold_timer_resetval set_meter_red
    set_meter_yellow set_meter_green set_RC_HPF_initial set_hpstages
    set_hf_detail set_RC_HPF_detail set_lf_detail set_RC_LPF_detail
    set_use_phaserotator set_RC_PHR set_RC_F_DS coe var set_coe set_var fst
    snd ] in H.

(** Case analysis on the conditions of a goal, innermost first. *)
Ltac case_ifs :=
  repeat (match goal with
          | |- context [if ?b then _ else _] =>
              lazymatch b with
              | context [if _ then _ else _] => fail
              | _ => destruct b
              end
          end; fields).

(** Turn [untouched c' = untouched c] into one equation per field. *)
Ltac frame_eqs H :=
  match type of H with
  | ?f ?c' = ?f ?c =>
      let x := fresh "c'" in
      let Hx := fresh "Hc'" in
      remember c' as x eqn:Hx; clear Hx;
      unfold f in H; injection H as H; intros
  end.

Lemma stage2_follow_untouched (c : agc) (phase : Z) (inp : float) :
  stage2_untouched (fst (stage2_follow c phase inp)) = stage2_untouched c.
Proof. unfold stage2_follow. split_pairs. reflexivity. Qed.

Lemma stage2_factor_untouched (c : agc) (ds_amph ds_ampl amp : float) :
  stage2_untouched (fst (fst (stage2_factor c ds_amph ds_ampl amp))) = stage2_untouched c.
Proof.
  unfold stage2_factor, stage2_de_esser, stage2_noise_gate. cbn [fst].
  case_ifs; reflexivity.
Qed.

Lemma stage2_modulate_untouched (c : agc) (factor : float) :
  stage2_untouched (stage2_modulate c factor) = stage2_untouched c.
Proof. unfold stage2_modulate. case_ifs; reflexivity. Qed.

Lemma stage2_ducker_untouched (c : agc) (m : Z) (factor amp : float) :
  stage2_untouched (stage2_ducker c m factor amp) = stage2_untouched c.
Proof. unfold stage2_ducker. case_ifs; reflexivity. Qed.

Lemma stage2_meters_untouched (c : agc) (orig_factor : float) :
  stage2_untouched (stage2_meters c orig_factor) = stage2_untouched c.
Proof. unfold stage2_meters. case_ifs; reflexivity. Qed.

Lemma stage2_host_untouched (c : agc) (inp : float) (phase m : Z) :
  stage2_untouched (stage2_host c inp phase m) = stage2_untouched c.
Proof.
  unfold stage2_host.
  pose proof (stage2_follow_untouched c phase inp) as H1.
  destruct (stage2_follow c phase inp) as [c1 [[ds_amph ds_ampl] amp]].
  pose proof (stage2_factor_untouched c1 ds_amph ds_ampl amp) as H2.
  destruct (stage2_factor c1 ds_amph ds_ampl amp) as [[c2 factor] orig_factor].
  cbn [fst] in *.
  rewrite stage2_meters_untouched, stage2_ducker_untouched, stage2_modulate_untouched.
  congruence.
Qed.

Lemma hpf_cascade_coe (n : nat) (i : Z) (coes vars vars' : arr4 agc_RC_Filter)
  (inp out : float) :
  hpf_cascade n i coes vars inp = Some (vars', out) ->
  arr4_map coe vars' = arr4_map coe vars.
Proof.
  revert i vars inp. induction n as [| n IH]; intros i vars inp Hc; cbn [hpf_cascade] in Hc.
  - inversion Hc; subst. reflexivity.
  - inv_bind Hc.
    destruct (agc_12db_hpfilter _ _ _) as [v o]. inv_bind Hc.
    apply IH in Hc. rewrite Hc. clear Hc IH.
    destruct i as [| [[| |] | [| |] |] |]; cbn in *; try discriminate;
      inversion E0; inversion E1; subst; reflexivity.
Qed.

Lemma phaserotate4_coe (phr : arr4 agc_RC_Filter) (inp : float) :
  arr4_map coe (fst (phaserotate4 phr inp)) = arr4_map coe phr.
Proof. reflexivity. Qed.

Lemma stage1_stage1_untouched (hst c c' : agc) (inp : float) :
  stage1 hst c inp = Some c' -> stage1_untouched c' = stage1_untouched c.
Proof.
  unfold stage1. intros Hs. inv_bind Hs.
  destruct p as [hpf x0]. apply hpf_cascade_coe in E.
  destruct (agc_6db_hpfilter _ _ _ _) as [v1 x1].
  destruct (agc_6db_lpfilter _ _ _ _) as [v2 x2].
  destruct (if (use_phaserotator hst =? 0)%Z then _ else _) as [phr x3] eqn:Ep.
  inv_bind Hs. inversion Hs; subst. clear Hs.
  apply (f_equal fst) in Ep. cbn [fst] in Ep. subst phr.
  unfold stage1_untouched. cbn -[phaserotate4 arr4_map].
  rewrite E.
  destruct (use_phaserotator hst =? 0)%Z; [reflexivity |].
  rewrite phaserotate4_coe. reflexivity.
Qed.

Section ValueParse.
Context {libc : Libc}.

Lemma valueparse_running_state (c : agc) (key value : string) :
  running_state (valueparse c key value) = running_state c.
Proof.
  unfold valueparse, setup_ratio, setup_subsonic, setup_hfdetail, setup_lfdetail.
  case_ifs; reflexivity.
Qed.

Lemma valueparse_unrecognized (c : agc) (key value : string) :
  key ∉ recognized_keys -> valueparse c key value = c.
Proof.
  intros Hk.
  assert (Hf : forall k, k ∈ recognized_keys -> key_is key k = false).
  { intros k Hin. unfold key_is. apply String.eqb_neq. intros ->. contradiction. }
  unfold valueparse.
  rewrite !Hf
    by (unfold recognized_keys;
        repeat first [apply list_elem_of_here | apply list_elem_of_further]).
  reflexivity.
Qed.

End ValueParse.

(** ** The heaps used to instantiate the statements *)

Lemma one_channel_run : run (libc := RefLibc.libc) ∅ [Init 48000 0.01] = Some one_channel.
Proof. vm_compute. reflexivity. Qed.

Lemma one_channel_lookup : one_channel !! 1%N = Some (channel_at one_channel 1).
Proof. vm_compute. reflexivity. Qed.

Lemma two_channels_run :
  run (libc := RefLibc.libc) ∅ [Init 48000 0.01; Init 48000 0.01] = Some two_channels.
Proof. vm_compute. reflexivity. Qed.

Lemma two_channels_lookup_1 : two_channels !! 1%N = Some (channel_at two_channels 1).
Proof. vm_compute. reflexivity. Qed.

Lemma two_channels_lookup_2 : two_channels !! 2%N = Some (channel_at two_channels 2).
Proof. vm_compute. reflexivity. Qed.

(** ** Parameter updates leave the running state alone *)

(** C10: a parameter update writes none of the host and partner links,
    the delay line, its length, the cursors, the applied gain and the
    variables of the filters (all part of [running_state]); with a key
    outside the recognized ones it writes nothing at all. *)
Theorem valueparse_frame {libc : Libc} (h : heap) (s : ptr) (c : agc) (key value : string) :
  h !! s = Some c ->
  exists c' : agc,
    agc_valueparse h s key value = Some (<[s := c']> h)
    /\ running_state c' = running_state c
    /\ (key ∉ recognized_keys -> c' = c /\ <[s := c']> h = h).
Proof.
  intros Hs. exists (valueparse c key value). split; [| split].
  - unfold agc_valueparse. rewrite Hs. reflexivity.
  - apply valueparse_running_state.
  - intros Hk. rewrite (valueparse_unrecognized c key value Hk).
    split; [reflexivity | apply insert_id; exact Hs].
Qed.

Lemma valueparse_frame_witness :
  exists c' : agc,
    agc_valueparse (libc := RefLibc.libc) one_channel 1 "gain" "6"
      = Some (<[1%N := c']> one_channel)
    /\ running_state c' = running_state (channel_at one_channel 1)
    /\ ("gain"%string ∉ recognized_keys ->
        c' = channel_at one_channel 1 /\ <[1%N := c']> one_channel = one_channel).
Proof.
  exact (valueparse_frame (libc := RefLibc.libc) one_channel 1
           (channel_at one_channel 1) "gain" "6" one_channel_lookup).
Defined.

(** ** Resetting the statistics *)

(** C9: after [agc_reset_stats] the three meters read 0 dB and the
    ducking factor is 1 (given that the library's [log10f] maps 1 to 0). *)
Theorem reset_stats_round_trip {libc : Libc} (h : heap) (s : ptr) (c : agc) :
  log10f 1 == 0 ->
  h !! s = Some c ->
  exists h' : heap,
    agc_reset_stats h s = Some h'
    /\ agc_get_meter_levels h' s = Some (0, 0, 0)%Z
    /\ agc_get_ducking_factor h' s = Some 1.
Proof.
  intros Hlog Hs. exists (<[s := reset_stats c]> h). split; [| split].
  - unfold agc_reset_stats. rewrite Hs. reflexivity.
  - unfold agc_get_meter_levels. rewrite lookup_insert_eq. cbn.
    assert (Hdb : level2db 1 = 0%Z).
    { unfold level2db, int_of_float. rewrite Qtrunc_zero; [reflexivity |].
      rewrite Hlog. reflexivity. }
    rewrite Hdb. reflexivity.
  - unfold agc_get_ducking_factor. rewrite lookup_insert_eq. reflexivity.
Qed.

Lemma reset_stats_round_trip_witness :
  exists h' : heap,
    agc_reset_stats one_channel 1 = Some h'
    /\ agc_get_meter_levels (libc := RefLibc.libc) h' 1 = Some (0, 0, 0)%Z
    /\ agc_get_ducking_factor h' 1 = Some 1.
Proof.
  apply (reset_stats_round_trip (libc := RefLibc.libc) one_channel 1
           (channel_at one_channel 1)).
  - reflexivity.
  - exact one_channel_lookup.
Defined.

(** ** The stereo link *)

Lemma stage3_factors (h : heap) (s : ptr) (c : agc) :
  h !! s = Some c ->
  agc_process_stage3 h s = (x ← stage3_sample c; g ← stage3_gain h s; Some (x * g)).
Proof.
  intros Hs. unfold agc_process_stage3, stage3_sample, stage3_gain. rewrite Hs. cbn.
  destruct (h !! host c); cbn.
  - destruct (ring_index c (out_pos c)); cbn; [| reflexivity].
    destruct (buffer c !! n); reflexivity.
  - destruct (ring_index c (out_pos c)); cbn; [| reflexivity].
    destruct (buffer c !! n); reflexivity.
Qed.

(** C8: once [a] and [b] are partners and [b] is in partnered mode, a
    control update on [b] changes nothing, and the output of either
    channel is its own delayed sample times the gain of [a]. *)
Theorem partnered_channel_defers (h : heap) (a b : ptr) (ca cb : agc) (boolean : Z) :
  a <> b -> h !! a = Some ca -> h !! b = Some cb -> host ca = a -> boolean <> 0%Z ->
  exists h2 : heap,
    link_to h a b boolean = Some h2
    /\ (forall mic_is_mute, agc_process_stage2 h2 b mic_is_mute = Some h2)
    /\ stage3_gain h2 b = Some (gain ca)
    /\ stage3_gain h2 a = Some (gain ca)
    /\ agc_process_stage3 h2 b = (x ← stage3_sample cb; Some (x * gain ca))
    /\ agc_process_stage3 h2 a = (x ← stage3_sample ca; Some (x * gain ca)).
Proof.
  intros Hab Ha Hb Hhost Hbool.
  pose (ca' := set_partner b ca).
  pose (cb' := set_host a (set_partner a cb)).
  pose (h2 := <[b := cb']> (<[b := set_partner a cb]> (<[a := ca']> h))).
  assert (Hl : link_to h a b boolean = Some h2).
  { unfold link_to, agc_set_as_partners. rewrite Ha. cbn [mbind option_bind].
    rewrite lookup_insert_ne by done. rewrite Hb. cbn [mbind option_bind].
    unfold agc_set_partnered_mode. rewrite lookup_insert_eq. cbn [mbind option_bind].
    destruct (boolean =? 0)%Z eqn:E; [apply Z.eqb_eq in E; contradiction |].
    reflexivity. }
  assert (H2b : h2 !! b = Some cb') by (unfold h2; apply lookup_insert_eq).
  assert (H2a : h2 !! a = Some ca').
  { unfold h2. rewrite !lookup_insert_ne by done. apply lookup_insert_eq. }
  assert (Hca : host ca' = a /\ gain ca' = gain ca /\ stage3_sample ca' = stage3_sample ca)
    by (repeat split; assumption).
  assert (Hcb : host cb' = a /\ stage3_sample cb' = stage3_sample cb)
    by (split; reflexivity).
  clearbody h2 ca' cb'.
  destruct Hca as (Hca1 & Hca2 & Hca3). destruct Hcb as (Hcb1 & Hcb2).
  assert (Hgb : stage3_gain h2 b = Some (gain ca)).
  { unfold stage3_gain. rewrite H2b. cbn [mbind option_bind].
    rewrite Hcb1, H2a. cbn [mbind option_bind]. rewrite Hca2. reflexivity. }
  assert (Hga : stage3_gain h2 a = Some (gain ca)).
  { unfold stage3_gain. rewrite H2a. cbn [mbind option_bind].
    rewrite Hca1, H2a. cbn [mbind option_bind]. rewrite Hca2. reflexivity. }
  exists h2. split; [exact Hl |]. split; [| split; [exact Hgb | split; [exact Hga | split]]].
  - intros m. unfold agc_process_stage2. rewrite H2b. cbn [mbind option_bind].
    rewrite Hcb1. destruct (decide (b = a)); [congruence | reflexivity].
  - rewrite (stage3_factors h2 b cb' H2b), Hgb, Hcb2.
    destruct (stage3_sample cb); reflexivity.
  - rewrite (stage3_factors h2 a ca' H2a), Hga, Hca3.
    destruct (stage3_sample ca); reflexivity.
Qed.

Lemma partnered_channel_defers_witness :
  exists h2 : heap,
    link_to two_channels 1 2 1 = Some h2
    /\ (forall mic_is_mute, agc_process_stage2 h2 2 mic_is_mute = Some h2)
    /\ stage3_gain h2 2 = Some (gain (channel_at two_channels 1))
    /\ stage3_gain h2 1 = Some (gain (channel_at two_channels 1))
    /\ agc_process_stage3 h2 2
       = (x ← stage3_sample (channel_at two_channels 2);
          Some (x * gain (channel_at two_channels 1)))
    /\ agc_process_stage3 h2 1
       = (x ← stage3_sample (channel_at two_channels 1);
          Some (x * gain (channel_at two_channels 1))).
Proof.
  apply (partnered_channel_defers two_channels 1 2
           (channel_at two_channels 1) (channel_at two_channels 2) 1).
  - discriminate.
  - exact two_channels_lookup_1.
  - exact two_channels_lookup_2.
  - reflexivity.
  - discriminate.
Defined.

(** ** The cursors of the delay line *)

Lemma stage1_effect (hst c c' : agc) (inp : float) :
  stage1 hst c inp = Some c' ->
  in_pos c' = wrap_int (in_pos c + 1)
  /\ out_pos c' = wrap_int (out_pos c + 1)
  /\ length (buffer c') = length (buffer c)
  /\ exists i, ring_index c (in_pos c) = Some i /\ buffer c' = <[i := input c']> (buffer c).
Proof.
  unfold stage1. intros Hs. inv_bind Hs.
  destruct p as [hpf x0].
  destruct (agc_6db_hpfilter _ _ _ _) as [v1 x1].
  destruct (agc_6db_lpfilter _ _ _ _) as [v2 x2].
  destruct (if (use_phaserotator hst =? 0)%Z then _ else _) as [phr x3].
  inv_bind Hs. inversion Hs; subst. clear Hs. cbn.
  repeat split; try reflexivity.
  - apply length_insert.
  - exists n. split; [exact E0 | reflexivity].
Qed.

Lemma hpf_cascade_total (n : nat) (i : Z) (coes vars : arr4 agc_RC_Filter) (inp : float) :
  (0 <= i)%Z -> (i + Z.of_nat n <= 4)%Z -> is_Some (hpf_cascade n i coes vars inp).
Proof.
  revert i vars inp. induction n as [| n IH]; intros i vars inp Hi Hn; cbn [hpf_cascade].
  - eexists; reflexivity.
  - assert (Hc : i = 0%Z \/ i = 1%Z \/ i = 2%Z \/ i = 3%Z) by lia.
    destruct Hc as [-> | [-> | [-> | ->]]];
      cbn [arr4_get arr4_set mbind option_bind]; unfold agc_12db_hpfilter;
      cbn [mbind option_bind]; apply IH; lia.
Qed.

(** A channel on which [agc_process_stage1] is defined: its host is live
    and runs at most four subsonic stages, and the write cursor indexes
    the delay line. *)
Lemma stage1_total (hst c : agc) (inp : float) :
  (0 <= hpstages hst <= 4)%Z ->
  (1 <= buffer_len c)%Z ->
  Z.of_nat (length (buffer c)) = buffer_len c ->
  (0 <= in_pos c)%Z ->
  is_Some (stage1 hst c inp).
Proof.
  intros Hh Hl Hb Hp. unfold stage1.
  destruct (hpf_cascade_total (Z.to_nat (hpstages hst)) 0 (RC_HPF_initial hst)
              (RC_HPF_initial c) inp) as [[hpf x0] ->]; [lia | lia |].
  cbn [mbind option_bind].
  destruct (agc_6db_hpfilter _ _ _ _) as [v1 x1].
  destruct (agc_6db_lpfilter _ _ _ _) as [v2 x2].
  destruct (if (use_phaserotator hst =? 0)%Z then _ else _) as [phr x3].
  unfold ring_index. cbn.
  destruct (buffer_len c =? 0)%Z eqn:E0; [lia |].
  pose proof (Z.rem_bound_pos (in_pos c) (buffer_len c) Hp ltac:(lia)) as Hr.
  destruct ((0 <=? Z.rem (in_pos c) (buffer_len c))
            && (Z.rem (in_pos c) (buffer_len c) <? Z.of_nat (length (buffer c))))%Z eqn:E1.
  - eexists; reflexivity.
  - apply andb_false_iff in E1 as [E1 | E1]; lia.
Qed.

(** The invariant of the two cursors. *)
Definition cursors_ok (c : agc) : Prop :=
  (INT_MIN <= in_pos c <= INT_MAX)%Z
  /\ (INT_MIN <= out_pos c <= INT_MAX)%Z
  /\ (0 <= buffer_len c <= INT_MAX)%Z
  /\ Z.of_nat (length (buffer c)) = buffer_len c
  /\ ((in_pos c - out_pos c) mod 2 ^ 32 = (buffer_len c - 2) mod 2 ^ 32)%Z.

Section Cursors.
Context {libc : Libc}.

Lemma init_channel_cursors (s : ptr) (rate : Z) (la : float) (c : agc) :
  init_channel s rate la = Some c ->
  buffer_len c = int_of_float (round_f32 (float_of_int rate * la))
  /\ (0 <= buffer_len c <= INT_MAX)%Z
  /\ buffer c = replicate (Z.to_nat (buffer_len c)) 0
  /\ in_pos c = (buffer_len c - 1)%Z
  /\ out_pos c = 1%Z
  /\ host c = s /\ partner c = s /\ hpstages c = 4%Z.
Proof.
  unfold init_channel. cbn.
  pose proof (int_of_float_range (round_f32 (float_of_int rate * la))) as Hr.
  destruct (int_of_float (round_f32 (float_of_int rate * la)) <? 0)%Z eqn:E; cbn;
    [discriminate |].
  destruct (negb _); [discriminate |].
  intros Hc. apply (inj Some) in Hc. subst c. cbn.
  repeat split; try reflexivity; try lia.
  apply wrap_int_id. unfold INT_MIN, INT_MAX in *. lia.
Qed.

Lemma cursors_ok_reachable (ks : list call) (h : heap) (s : ptr) (c : agc) :
  run ∅ ks = Some h -> h !! s = Some c -> cursors_ok c.
Proof.
  apply reachable_invariant; clear.
  - intros s rate la c Hc. apply init_channel_cursors in Hc.
    destruct Hc as (Hl & Hr & Hb & Hi & Ho & _).
    unfold cursors_ok. rewrite Hi, Ho, Hb, length_replicate.
    unfold INT_MIN, INT_MAX in *. repeat split; try lia. f_equal. lia.
  - intros p c Hc. exact Hc.
  - intros p c Hc. exact Hc.
  - intros hst c x c' Hc Hs.
    pose proof (stage1_stage1_untouched _ _ _ _ Hs) as Hu.
    apply stage1_effect in Hs as (Hi & Ho & Hb & _).
    assert (Hl : buffer_len c' = buffer_len c)
      by (unfold stage1_untouched in Hu; congruence).
    destruct Hc as (H1 & H2 & H3 & H4 & H5).
    unfold cursors_ok. rewrite Hi, Ho, Hb, Hl.
    pose proof (wrap_int_range (in_pos c + 1)). pose proof (wrap_int_range (out_pos c + 1)).
    repeat split; try lia.
    rewrite Zminus_mod, !wrap_int_mod, <- Zminus_mod, <- H5. f_equal. lia.
  - intros c x phase m Hc.
    pose proof (stage2_host_untouched c x phase m) as Hu.
    frame_eqs Hu. unfold cursors_ok in *. congruence.
  - intros c Hc. exact Hc.
  - intros c k v Hc.
    pose proof (valueparse_running_state c k v) as Hu.
    frame_eqs Hu. unfold cursors_ok in *. congruence.
Qed.

End Cursors.

Section Feeding.
Context {libc : Libc}.

(** Feeding samples to a self-hosted channel: every call is defined and
    moves both cursors by one, as long as they stay below [INT_MAX]. *)
Lemma stage1_feed (s : ptr) (xs : list float) (h : heap) (c : agc) :
  h !! s = Some c ->
  host c = s ->
  (0 <= hpstages c <= 4)%Z ->
  (1 <= buffer_len c)%Z ->
  Z.of_nat (length (buffer c)) = buffer_len c ->
  (0 <= in_pos c)%Z -> (in_pos c + Z.of_nat (length xs) <= INT_MAX)%Z ->
  (0 <= out_pos c)%Z -> (out_pos c + Z.of_nat (length xs) <= INT_MAX)%Z ->
  exists (h' : heap) (c' : agc),
    run h (map (Stage1 s) xs) = Some h'
    /\ h' !! s = Some c'
    /\ in_pos c' = (in_pos c + Z.of_nat (length xs))%Z
    /\ out_pos c' = (out_pos c + Z.of_nat (length xs))%Z
    /\ length (buffer c') = length (buffer c)
    /\ stage1_untouched c' = stage1_untouched c.
Proof.
  revert h c. induction xs as [| x xs IH]; intros h c Hs Hh Hp Hl Hb Hi Hi' Ho Ho'.
  - exists h, c. cbn. repeat split; try assumption; lia.
  - cbn [length] in Hi', Ho'.
    destruct (stage1_total c c x Hp Hl Hb Hi) as [c1 H1].
    pose proof (stage1_stage1_untouched _ _ _ _ H1) as Hu.
    pose proof (stage1_effect _ _ _ _ H1) as (Hi1 & Ho1 & Hb1 & _).
    rewrite wrap_int_id in Hi1 by (unfold INT_MIN, INT_MAX in *; lia).
    rewrite wrap_int_id in Ho1 by (unfold INT_MIN, INT_MAX in *; lia).
    assert (Hf : host c1 = host c /\ hpstages c1 = hpstages c /\ buffer_len c1 = buffer_len c)
      by (unfold stage1_untouched in Hu; repeat split; congruence).
    destruct Hf as (Hf1 & Hf2 & Hf3).
    destruct (IH (<[s := c1]> h) c1) as (h' & c' & Hr & Hs' & Hi2 & Ho2 & Hb2 & Hu2);
      try lia; try congruence.
    { apply lookup_insert_eq. }
    exists h', c'. split; [| repeat split].
    + cbn [map run exec]. unfold agc_process_stage1. rewrite Hs. cbn [mbind option_bind].
      rewrite Hh, Hs. cbn [mbind option_bind]. rewrite H1. cbn [mbind option_bind].
      exact Hr.
    + exact Hs'.
    + cbn [length]. lia.
    + cbn [length]. lia.
    + congruence.
    + congruence.
Qed.

End Feeding.

(** C1 (amended): from construction on and through every sequence of
    calls, the write cursor minus the read cursor is the buffer length
    minus two: as 32-bit integers always, and as integers as long as
    neither cursor has wrapped around. *)
Theorem cursor_offset {libc : Libc} (ks : list call) (h : heap) (s : ptr) (c : agc) :
  run ∅ ks = Some h ->
  h !! s = Some c ->
  ((in_pos c - out_pos c) mod 2 ^ 32 = (buffer_len c - 2) mod 2 ^ 32)%Z
  /\ ((-1 <= in_pos c)%Z -> (0 <= out_pos c)%Z ->
      (in_pos c - out_pos c = buffer_len c - 2)%Z).
Proof.
  intros Hr Hs.
  destruct (cursors_ok_reachable ks h s c Hr Hs) as (H1 & H2 & H3 & _ & H5).
  split; [exact H5 |]. intros Hi Ho.
  pose proof (Z.div_mod (in_pos c - out_pos c) (2 ^ 32) ltac:(lia)) as Ha.
  pose proof (Z.div_mod (buffer_len c - 2) (2 ^ 32) ltac:(lia)) as Hb.
  rewrite H5 in Ha. unfold INT_MIN, INT_MAX in *. lia.
Qed.

Lemma cursor_offset_witness :
  ((in_pos (channel_at one_channel 1) - out_pos (channel_at one_channel 1)) mod 2 ^ 32
   = (buffer_len (channel_at one_channel 1) - 2) mod 2 ^ 32)%Z
  /\ ((-1 <= in_pos (channel_at one_channel 1))%Z ->
      (0 <= out_pos (channel_at one_channel 1))%Z ->
      (in_pos (channel_at one_channel 1) - out_pos (channel_at one_channel 1)
       = buffer_len (channel_at one_channel 1) - 2)%Z).
Proof.
  exact (cursor_offset (libc := RefLibc.libc) [Init 48000 0.01] one_channel 1
           (channel_at one_channel 1) one_channel_run one_channel_lookup).
Defined.

(** C1 as stated fails: after [agc_init (48000, 0.01)] and a warm-up of
    480 samples the cursors are 478 apart, and the buffer length is 480. *)
Lemma cursor_offset_counterexample :
  exists (h : heap) (c : agc),
    run (libc := RefLibc.libc) ∅ (Init 48000 0.01 :: map (Stage1 1) (repeat 0 480)) = Some h
    /\ h !! 1%N = Some c
    /\ buffer_len c = 480%Z
    /\ (in_pos c - out_pos c)%Z = 478%Z
    /\ (in_pos c - out_pos c)%Z <> buffer_len c.
Proof.
  assert (H0 : host (channel_at one_channel 1) = 1%N
               /\ (0 <= hpstages (channel_at one_channel 1) <= 4)%Z
               /\ (1 <= buffer_len (channel_at one_channel 1))%Z
               /\ Z.of_nat (length (buffer (channel_at one_channel 1)))
                  = buffer_len (channel_at one_channel 1)
               /\ (0 <= in_pos (channel_at one_channel 1))%Z
               /\ (in_pos (channel_at one_channel 1)
                   + Z.of_nat (length (repeat (0 : float) 480)) <= INT_MAX)%Z
               /\ (0 <= out_pos (channel_at one_channel 1))%Z
               /\ (out_pos (channel_at one_channel 1)
                   + Z.of_nat (length (repeat (0 : float) 480)) <= INT_MAX)%Z).
  { vm_compute. repeat split; congruence. }
  destruct H0 as (G1 & G2 & G3 & G4 & G5 & G6 & G7 & G8).
  destruct (stage1_feed (libc := RefLibc.libc) 1 (repeat 0 480) one_channel
              (channel_at one_channel 1) one_channel_lookup G1 G2 G3 G4 G5 G6 G7 G8)
    as (h & c & Hr & Hs & Hi & Ho & _ & Hu).
  clear G1 G2 G3 G4 G5 G6 G7 G8.
  exists h, c.
  assert (Hl : buffer_len c = 480%Z).
  { unfold stage1_untouched in Hu.
    assert (buffer_len c = buffer_len (channel_at one_channel 1)) by congruence.
    assumption. }
  assert (Hd : (in_pos c - out_pos c)%Z = 478%Z).
  { rewrite Hi, Ho. vm_compute. reflexivity. }
  split; [| repeat split; try assumption].
  - change (Init 48000 0.01 :: map (Stage1 1%N) (repeat 0 480))
      with ([Init 48000 0.01] ++ map (Stage1 1%N) (repeat 0 480)).
    cbn [app run]. 
    pose proof one_channel_run as H1. cbn [run] in H1.
    destruct (exec ∅ (Init 48000 0.01)) as [h1 |]; [| discriminate].
    cbn [mbind option_bind] in *. apply (inj Some) in H1. subst h1. exact Hr.
  - rewrite Hd, Hl. discriminate.
Qed.

(** ** Construction *)

Lemma agc_init_channel {libc : Libc} (h h' : heap) (rate : Z) (la : float) (s : ptr) :
  agc_init h rate la = Some (h', s) ->
  s = new_ptr h
  /\ exists c, init_channel s rate la = Some c /\ h' = <[s := c]> h.
Proof.
  unfold agc_init. intros Hi. inv_bind Hi. inversion Hi; subst.
  split; [reflexivity |]. exists a. split; [assumption | reflexivity].
Qed.


Lemma Qtrunc_ge_1 (x : float) : 0 <= x -> ((1 <= Qtrunc x)%Z <-> 1 <= x).
Proof.
  intros Hx. rewrite (Qtrunc_nonneg x Hx). split.
  - intros H1. apply Qle_trans with (inject_Z (Qfloor x)); [| apply Qfloor_le].
    change 1 with (inject_Z 1). rewrite <- Zle_Qle. exact H1.
  - intros H1. change 1%Z with (Qfloor 1). apply Qfloor_resp_le. exact H1.
Qed.

(** C7 (amended): a successful [agc_init] gives a delay line whose
    capacity is the binary32 product [sampleRate * lookahead], truncated
    toward zero; it is at least 1 exactly when that product is, and zero
    otherwise. *)
Theorem init_capacity {libc : Libc} (h h' : heap) (rate : Z) (la : float) (s : ptr) :
  (0 < rate)%Z -> 0 < la ->
  agc_init h rate la = Some (h', s) ->
  exists c : agc,
    h' !! s = Some c
    /\ buffer_len c = Qtrunc (round_f32 (float_of_int rate * la))
    /\ Z.of_nat (length (buffer c)) = buffer_len c
    /\ (0 <= buffer_len c)%Z
    /\ ((1 <= buffer_len c)%Z <-> 1 <= round_f32 (float_of_int rate * la)).
Proof.
  intros Hrate Hla Hi.
  apply agc_init_channel in Hi as (_ & c & Hc & ->).
  exists c. split; [apply lookup_insert_eq |].
  apply init_channel_cursors in Hc as (Hl & Hr & Hb & _).
  assert (Hpos : 0 <= round_f32 (float_of_int rate * la)).
  { apply round_f32_nonneg.
    apply Qmult_le_0_compat; [| apply Qlt_le_weak; exact Hla].
    apply float_of_int_nonneg. lia. }
  assert (Ht : buffer_len c = Qtrunc (round_f32 (float_of_int rate * la))).
  { rewrite Hl. apply int_of_float_trunc. rewrite <- Hl. apply Hr. }
  repeat split.
  - exact Ht.
  - rewrite Hb, length_replicate. lia.
  - lia.
  - rewrite Ht. apply Qtrunc_ge_1. exact Hpos.
  - rewrite Ht. apply Qtrunc_ge_1. exact Hpos.
Qed.

Lemma init_capacity_witness :
  exists c : agc,
    one_channel !! 1%N = Some c
    /\ buffer_len c = Qtrunc (round_f32 (float_of_int 48000 * 0.01))
    /\ Z.of_nat (length (buffer c)) = buffer_len c
    /\ (0 <= buffer_len c)%Z
    /\ ((1 <= buffer_len c)%Z <-> 1 <= round_f32 (float_of_int 48000 * 0.01)).
Proof.
  apply (init_capacity (libc := RefLibc.libc) ∅ one_channel 48000 0.01 1).
  - reflexivity.
  - reflexivity.
  - vm_compute. reflexivity.
Defined.

(** C7 as stated fails: at 8000 Hz a lookahead of 0.1 ms gives a channel
    with a delay line of capacity zero. *)
Lemma init_capacity_counterexample :
  exists (h : heap) (s : ptr) (c : agc),
    agc_init (libc := RefLibc.libc) ∅ 8000 0.0001 = Some (h, s)
    /\ h !! s = Some c
    /\ buffer_len c = 0%Z
    /\ buffer c = []
    /\ ~ (1 <= buffer_len c)%Z.
Proof.
  destruct (agc_init (libc := RefLibc.libc) ∅ 8000 0.0001) as [[h s] |] eqn:E;
    [| vm_compute in E; discriminate].
  pose proof (agc_init_channel _ _ _ _ _ E) as (Hs & c & Hc & Hh).
  exists h, s, c. subst h. rewrite lookup_insert_eq.
  apply init_channel_cursors in Hc as (Hl & _ & Hb & _).
  assert (H0 : buffer_len c = 0%Z) by (rewrite Hl; vm_compute; reflexivity).
  repeat split; try assumption.
  - rewrite Hb, H0. reflexivity.
  - rewrite H0. lia.
Qed.

(** ** The control update, block by block *)

Lemma stage2_follow_shape (c : agc) (phase : Z) (inp : float) :
  exists fds hi lo sig,
    fst (stage2_follow c phase inp)
    = set_RR_signal sig (set_RR_DS_low lo (set_RR_DS_high hi (set_RC_F_DS fds c))).
Proof. unfold stage2_follow. cbn. do 4 eexists. reflexivity. Qed.

Lemma stage2_noise_gate_shape (c : agc) (amp : float) :
  stage2_noise_gate c amp
  = set_nr_state (gate_next (nr_onthres c) (nr_offthres c) (nr_state c) amp) c.
Proof.
  destruct c. unfold stage2_noise_gate, gate_next. fields. case_ifs; reflexivity.
Qed.

Lemma stage2_de_esser_shape (c : agc) (ds_amph ds_ampl : float) :
  stage2_de_esser c ds_amph ds_ampl
  = set_ds_state (de_esser_next (ds_bias c) (ds_state c) ds_amph ds_ampl) c.
Proof.
  destruct c. unfold stage2_de_esser, de_esser_next. fields. case_ifs; reflexivity.
Qed.

Lemma stage2_modulate_shape (c : agc) (factor : float) :
  stage2_modulate c factor
  = set_gain (gain_next (gain c) (gain_interval_amount c) factor) c.
Proof.
  destruct c. unfold stage2_modulate, gain_next. fields. case_ifs; reflexivity.
Qed.

Lemma stage2_ducker_shape (c : agc) (m : Z) (factor amp : float) :
  exists d t, stage2_ducker c m factor amp = set_ducker_hold_timer t (set_df d c).
Proof.
  destruct c. unfold stage2_ducker. fields.
  case_ifs; cbv [set_df set_ducker_hold_timer]; fields; do 2 eexists; reflexivity.
Qed.

Lemma stage2_meters_shape (c : agc) (orig_factor : float) :
  exists r y g,
    stage2_meters c orig_factor = set_meter_green g (set_meter_yellow y (set_meter_red r c)).
Proof.
  destruct c. unfold stage2_meters. fields.
  case_ifs; cbv [set_meter_red set_meter_yellow set_meter_green]; fields;
    do 3 eexists; reflexivity.
Qed.

Lemma stage2_ducker_inputs (c1 c2 : agc) (m : Z) (factor amp : float) :
  ducker_inputs c1 = ducker_inputs c2 ->
  df (stage2_ducker c1 m factor amp) = df (stage2_ducker c2 m factor amp).
Proof.
  destruct c1, c2. unfold ducker_inputs. fields. intros H.
  injection H as H1 H2 H3 H4 H5 H6 H7. subst.
  unfold stage2_ducker. fields. case_ifs; reflexivity.
Qed.


(** ** The reference library meets what is asked of [powf] *)

Lemma Qfloor_frac (y : float) : 0 <= y - inject_Z (Qfloor y) /\ y - inject_Z (Qfloor y) < 1.
Proof.
  pose proof (Qfloor_le y) as H1. pose proof (Qlt_floor y) as H2.
  rewrite inject_Z_plus in H2. change (inject_Z 1) with 1 in H2. split; lra.
Qed.

Lemma ref_powf_nonneg : powf_nonneg RefLibc.libc.
Proof.
  intros x y Hx. cbn. unfold RefLibc.powf.
  pose proof (Qpower_0_lt x (Qfloor y) Hx) as Hp.
  destruct (Qfloor_frac y) as [H1 H2].
  set (p := x ^ Qfloor y) in *. set (r := y - inject_Z (Qfloor y)) in *.
  apply Qmult_le_0_compat; [lra |]. nra.
Qed.


(** ** One call, seen from one channel *)


(** ** The noise gate *)




Section Gate.
Context {libc : Libc}.

Lemma init_channel_params (s : ptr) (rate : Z) (la : float) (c : agc) :
  init_channel s rate la = Some c ->
  ratio c = powf 10 (round_f32 (3 / 20))
  /\ gain_interval_amount c = round_f32 (ratio c / float_of_int (buffer_len c))
  /\ limit c = 0.707 /\ gain c = 0 /\ df c = 1
  /\ nr_onthres c = 0.1 /\ nr_offthres c = 0.1001 /\ nr_gain c = 0.5
  /\ ds_gain c = 0.5 /\ nr_state c = 0%Z /\ ds_state c = 0%Z
  /\ ducker_attack c = 1 / float_of_int (buffer_len c)
  /\ ducker_release c = 1 / (0.250 * float_of_int rate)
  /\ RR_signal c = arr4_all 0
  /\ meter_red c = 1 /\ meter_yellow c = 1 /\ meter_green c = 1
  /\ use_ducker c = 0%Z /\ use_phaserotator c = 1%Z /\ sRate c = rate.
Proof.
  unfold init_channel. cbn.
  destruct (_ || _); [discriminate |].
  intros Hc. apply (inj Some) in Hc. subst c. cbn. repeat split.
Qed.





End Gate.

Lemma stage2_self_hosted (h h' : heap) (s : ptr) (c c' : agc) (m : Z) :
  h !! s = Some c -> host c = s ->
  agc_process_stage2 h s m = Some h' -> h' !! s = Some c' ->
  exists p phase,
    h !! partner c = Some p /\ stage2_phase c = Some phase
    /\ level_at h s = Some (stage2_level c (stage2_input s c p) phase)
    /\ target_at h s = Some (stage2_target c (stage2_input s c p) phase)
    /\ c' = stage2_host c (stage2_input s c p) phase m
    /\ h' = <[s := c']> h.
Proof.
  intros Hs Hh H2 Hs'. unfold agc_process_stage2 in H2. rewrite Hs in H2.
  cbn [mbind option_bind] in H2.
  destruct (decide (s = host c)) as [_ | N]; [| congruence].
  destruct (h !! partner c) as [p |] eqn:Hp; [| discriminate].
  destruct (stage2_phase c) as [phase |] eqn:Hph; [| discriminate].
  cbn [mbind option_bind] in H2. apply (inj Some) in H2. subst h'.
  rewrite lookup_insert_eq in Hs'. apply (inj Some) in Hs'. subst c'.
  exists p, phase. repeat split; try reflexivity.
  - unfold level_at. rewrite Hs. cbn [mbind option_bind]. rewrite Hp.
    cbn [mbind option_bind]. rewrite Hph. reflexivity.
  - unfold target_at. rewrite Hs. cbn [mbind option_bind]. rewrite Hp.
    cbn [mbind option_bind]. rewrite Hph. reflexivity.
Qed.



(** ** The target gain and the ramp *)

Lemma stage2_target_formula (c : agc) (inp : float) (phase m : Z) :
  stage2_target c inp phase
  = (let raw := stage2_raw_factor c (stage2_level c inp phase) in
     let factor :=
       if (nr_state (stage2_host c inp phase m) =? 1)%Z then raw * nr_gain c else raw in
     if (ds_state (stage2_host c inp phase m) =? 1)%Z then factor * ds_gain c else factor).
Proof.
  unfold stage2_target, stage2_host, stage2_level.
  destruct (stage2_follow_shape c phase inp) as (fds & hi & lo & sig & Hf).
  destruct (stage2_follow c phase inp) as [c1 [[ds_amph ds_ampl] amp]].
  cbn [fst snd] in *. subst c1.
  unfold stage2_factor. rewrite stage2_noise_gate_shape, stage2_de_esser_shape.
  rewrite stage2_modulate_shape.
  match goal with |- context [stage2_ducker ?c ?m ?f ?a] =>
    destruct (stage2_ducker_shape c m f a) as (d & t & ->) end.
  match goal with |- context [stage2_meters ?c ?o] =>
    destruct (stage2_meters_shape c o) as (r & y & g & ->) end.
  reflexivity.
Qed.

Lemma stage2_host_gain (c : agc) (inp : float) (phase m : Z) :
  gain (stage2_host c inp phase m)
  = gain_next (gain c) (gain_interval_amount c) (stage2_target c inp phase).
Proof.
  unfold stage2_target, stage2_host.
  destruct (stage2_follow_shape c phase inp) as (fds & hi & lo & sig & Hf).
  destruct (stage2_follow c phase inp) as [c1 [[ds_amph ds_ampl] amp]].
  cbn [fst snd] in *. subst c1.
  unfold stage2_factor. rewrite stage2_noise_gate_shape, stage2_de_esser_shape.
  rewrite stage2_modulate_shape.
  match goal with |- context [stage2_ducker ?c ?m ?f ?a] =>
    destruct (stage2_ducker_shape c m f a) as (d & t & ->) end.
  match goal with |- context [stage2_meters ?c ?o] =>
    destruct (stage2_meters_shape c o) as (r & y & g & ->) end.
  reflexivity.
Qed.

Lemma stage2_raw_factor_min (c : agc) (amp : float) :
  stage2_raw_factor c amp == Qmin (limit c / (amp + 0.0001)) (ratio c).
Proof.
  unfold stage2_raw_factor. fcases.
  - symmetry. apply Q.min_r. lra.
  - symmetry. apply Q.min_l. exact E.
Qed.

(** C3: the gain a control update heads for is
    [min (limit / (level + 0.0001), ratio)], times the noise-gate
    attenuation when the gate is closed after the update and times the
    de-esser attenuation when the de-esser is active after it; the
    applied gain then takes one step toward that target. *)
Theorem target_gain (h h' : heap) (s : ptr) (c c' : agc) (m : Z) :
  h !! s = Some c -> host c = s ->
  agc_process_stage2 h s m = Some h' -> h' !! s = Some c' ->
  exists lvl t : float,
    level_at h s = Some lvl
    /\ target_at h s = Some t
    /\ t == Qmin (limit c / (lvl + 0.0001)) (ratio c)
            * (if (nr_state c' =? 1)%Z then nr_gain c else 1)
            * (if (ds_state c' =? 1)%Z then ds_gain c else 1)
    /\ gain c' = gain_next (gain c) (gain_interval_amount c) t.
Proof.
  intros Hs Hh H2 Hs'.
  destruct (stage2_self_hosted h h' s c c' m Hs Hh H2 Hs')
    as (p & phase & _ & _ & Hl & Ht & -> & _).
  eexists _, _. split; [exact Hl |]. split; [exact Ht |]. split.
  - rewrite (stage2_target_formula c (stage2_input s c p) phase m). cbv zeta.
    rewrite <- stage2_raw_factor_min.
    destruct (nr_state _ =? 1)%Z; destruct (ds_state _ =? 1)%Z; ring.
  - apply stage2_host_gain.
Qed.

Lemma target_gain_witness :
  exists lvl t : float,
    level_at one_channel 1 = Some lvl
    /\ target_at one_channel 1 = Some t
    /\ t == Qmin (limit (channel_at one_channel 1) / (lvl + 0.0001))
              (ratio (channel_at one_channel 1))
            * (if (nr_state (channel_at one_channel_updated 1) =? 1)%Z
               then nr_gain (channel_at one_channel 1) else 1)
            * (if (ds_state (channel_at one_channel_updated 1) =? 1)%Z
               then ds_gain (channel_at one_channel 1) else 1)
    /\ gain (channel_at one_channel_updated 1)
       = gain_next (gain (channel_at one_channel 1))
           (gain_interval_amount (channel_at one_channel 1)) t.
Proof.
  apply (target_gain one_channel one_channel_updated 1 (channel_at one_channel 1)
           (channel_at one_channel_updated 1) 0).
  - exact one_channel_lookup.
  - reflexivity.
  - vm_compute. reflexivity.
  - vm_compute. reflexivity.
Defined.

Lemma stage2_channel (h h' : heap) (s : ptr) (c c' : agc) (m : Z) :
  h !! s = Some c ->
  agc_process_stage2 h s m = Some h' -> h' !! s = Some c' ->
  (host c <> s /\ c' = c)
  \/ (host c = s
      /\ exists p phase, c' = stage2_host c (stage2_input s c p) phase m).
Proof.
  intros Hs H2 Hs'. destruct (decide (host c = s)) as [Hh | Hh].
  - right. split; [exact Hh |].
    destruct (stage2_self_hosted h h' s c c' m Hs Hh H2 Hs')
      as (p & phase & _ & _ & _ & _ & Hc & _).
    exists p, phase. exact Hc.
  - left. split; [exact Hh |].
    unfold agc_process_stage2 in H2. rewrite Hs in H2. cbn [mbind option_bind] in H2.
    destruct (decide (s = host c)); [congruence |]. congruence.
Qed.








Section Ramp.
Context {libc : Libc}.



End Ramp.



Lemma ramp_setup_run : run (libc := RefLibc.libc) ∅ ramp_setup = Some ramp_start.
Proof. vm_compute. reflexivity. Qed.

Lemma ramp_update : agc_process_stage2 ramp_start 1 0 = Some ramp_updated.
Proof. vm_compute. reflexivity. Qed.

(** C2 as stated fails: with the ratio at 10 and a delay line of 480
    samples, the first control update takes the gain from 0 to
    11184811 / 2^29, the binary32 number nearest to 10 / 480 and above
    it. *)
Lemma gain_ramp_counterexample :
  exists (c c' : agc),
    run (libc := RefLibc.libc) ∅ ramp_setup = Some ramp_start
    /\ ramp_start !! 1%N = Some c /\ host c = 1%N
    /\ agc_process_stage2 ramp_start 1 0 = Some ramp_updated
    /\ ramp_updated !! 1%N = Some c'
    /\ ratio c = 10 /\ buffer_len c = 480%Z
    /\ gain c = 0 /\ gain c' = 11184811 # 536870912
    /\ ~ Qabs (gain c' - gain c) <= ratio c / inject_Z (buffer_len c).
Proof.
  exists (channel_at ramp_start 1), (channel_at ramp_updated 1).
  split; [exact ramp_setup_run |].
  split; [vm_compute; reflexivity |].
  split; [vm_compute; reflexivity |].
  split; [exact ramp_update |].
  split; [vm_compute; reflexivity |].
  assert (H : ratio (channel_at ramp_start 1) = 10
              /\ buffer_len (channel_at ramp_start 1) = 480%Z
              /\ gain (channel_at ramp_start 1) = 0
              /\ gain (channel_at ramp_updated 1) = 11184811 # 536870912).
  { vm_compute. repeat split; reflexivity. }
  destruct H as (H1 & H2 & H3 & H4).
  repeat split; try assumption.
  rewrite H1, H2, H3, H4. vm_compute. intros H. apply H. reflexivity.
Qed.

(** ** The ducker *)

Lemma rr_highest_ge (storage highest : float) : highest <= rr_highest storage highest.
Proof. unfold rr_highest. fcases; lra. Qed.

Lemma quad_rr_level_nonneg (storage : arr4 float) (reset_point : arr4 Z) (phase : Z)
  (inp : float) :
  0 <= snd (agc_quad_rr storage reset_point phase inp).
Proof.
  unfold agc_quad_rr. cbn [snd].
  repeat (eapply Qle_trans; [| apply rr_highest_ge]). lra.
Qed.

Lemma stage2_level_quad_rr (c : agc) (inp : float) (phase : Z) :
  stage2_level c inp phase
  = snd (agc_quad_rr (RR_signal c) (RR_reset_point c) phase inp).
Proof. reflexivity. Qed.

Lemma stage2_host_df (c : agc) (inp : float) (phase m : Z) :
  df (stage2_host c inp phase m)
  = df (stage2_ducker c m (stage2_target c inp phase) (stage2_level c inp phase)).
Proof.
  unfold stage2_target, stage2_level, stage2_host.
  destruct (stage2_follow_shape c phase inp) as (fds & hi & lo & sig & Hf).
  destruct (stage2_follow c phase inp) as [c1 [[ds_amph ds_ampl] amp]].
  cbn [fst snd] in *. subst c1.
  unfold stage2_factor. rewrite stage2_noise_gate_shape, stage2_de_esser_shape.
  rewrite stage2_modulate_shape.
  match goal with |- context [stage2_meters ?c ?o] =>
    destruct (stage2_meters_shape c o) as (r & y & g & ->) end.
  fields. apply stage2_ducker_inputs. reflexivity.
Qed.

(** One update of the ducker, for a target and a level whose product is
    not negative. *)
Lemma stage2_ducker_bounds (c : agc) (m : Z) (factor amp : float) :
  0 <= factor * amp -> 0 <= ducker_attack c -> 0 <= limit c ->
  df (stage2_ducker c m factor amp) <= Qmax (df c) (1 + ducker_release c)
  /\ (0 <= ducker_release c ->
      Qmin (df c) (1 - limit c - ducker_attack c) <= df (stage2_ducker c m factor amp)).
Proof.
  intros Hfa Ha Hl. rewrite Q.max_le_iff.
  setoid_rewrite Q.min_le_iff.
  unfold stage2_ducker.
  destruct (negb (m =? 0)%Z || (use_ducker c =? 0)%Z).
  - fcases; fields; split; intros; lra.
  - cbv zeta.
    destruct (1 - factor * amp <.? 1 - limit c) eqn:E1;
      [apply fltb_lt in E1 | apply fltb_ge in E1];
      (destruct (df c <.? _) eqn:E2; [apply fltb_lt in E2 | apply fltb_ge in E2];
       [destruct (ducker_hold_timer c =? 0)%Z |]; fields;
       (match goal with |- context [?x >.? ?y] =>
          destruct (x >.? y) eqn:E3; [apply fgtb_gt in E3 | apply fgtb_le in E3]
        end); fields; split; intros; lra).
Qed.

Definition duck_ok (c : agc) : Prop :=
  0 <= limit c /\ 0 <= ratio c /\ 0 <= nr_gain c /\ 0 <= ds_gain c
  /\ 0 <= ducker_attack c.

Lemma stage2_target_nonneg (c : agc) (inp : float) (phase : Z) :
  duck_ok c -> 0 <= stage2_target c inp phase * stage2_level c inp phase.
Proof.
  intros (Hl & Hr & Hn & Hd & _).
  pose proof (quad_rr_level_nonneg (RR_signal c) (RR_reset_point c) phase inp) as Hlvl.
  rewrite <- stage2_level_quad_rr in Hlvl.
  apply Qmult_le_0_compat; [| exact Hlvl].
  rewrite (stage2_target_formula c inp phase 0). cbv zeta.
  assert (Hraw : 0 <= stage2_raw_factor c (stage2_level c inp phase)).
  { rewrite stage2_raw_factor_min. apply Q.min_glb; [| exact Hr].
    unfold Qdiv. apply Qmult_le_0_compat; [exact Hl |].
    apply Qinv_le_0_compat. lra. }
  destruct (nr_state _ =? 1)%Z; destruct (ds_state _ =? 1)%Z;
    repeat apply Qmult_le_0_compat; assumption.
Qed.

Section Ducker.
Context {libc : Libc}.

Lemma valueparse_gains (c : agc) (key value : string) :
  (limit (valueparse c key value) = limit c
   \/ exists v, limit (valueparse c key value) = powf 2 v)
  /\ (ratio (valueparse c key value) = ratio c
      \/ exists v, ratio (valueparse c key value) = powf 10 v)
  /\ (nr_gain (valueparse c key value) = nr_gain c
      \/ exists v, nr_gain (valueparse c key value) = powf 2 v)
  /\ (ds_gain (valueparse c key value) = ds_gain c
      \/ exists v, ds_gain (valueparse c key value) = powf 2 v).
Proof.
  unfold valueparse, setup_ratio, setup_subsonic, setup_hfdetail, setup_lfdetail.
  case_ifs; repeat split; try (left; reflexivity); right; eexists; reflexivity.
Qed.

Lemma duck_ok_reachable (ks : list call) (h : heap) (s : ptr) (c : agc) :
  powf_nonneg libc -> run ∅ ks = Some h -> h !! s = Some c -> duck_ok c.
Proof.
  intros Hpow. apply reachable_invariant; clear ks h s c.
  - intros s rate la c Hc.
    pose proof (init_channel_cursors _ _ _ _ Hc) as (_ & Hlen & _).
    apply init_channel_params in Hc.
    destruct Hc as (Hr & _ & Hl & _ & _ & _ & _ & Hn & Hd & _ & _ & Ha & _).
    unfold duck_ok. rewrite Hr, Hl, Hn, Hd, Ha.
    repeat split; try discriminate.
    + apply Hpow. reflexivity.
    + unfold Qdiv. rewrite Qmult_1_l. apply Qinv_le_0_compat.
      apply float_of_int_nonneg. lia.
  - intros p c Hc. exact Hc.
  - intros p c Hc. exact Hc.
  - intros hst c x c' Hc Hs. apply stage1_stage1_untouched in Hs. frame_eqs Hs.
    unfold duck_ok in *. congruence.
  - intros c x phase m Hc.
    pose proof (stage2_host_untouched c x phase m) as Hu. frame_eqs Hu.
    unfold duck_ok in *. congruence.
  - intros c Hc. exact Hc.
  - intros c k v (H1 & H2 & H3 & H4 & H5).
    pose proof (valueparse_gains c k v) as (G1 & G2 & G3 & G4).
    pose proof (valueparse_running_state c k v) as Hu. frame_eqs Hu.
    unfold duck_ok.
    assert (P2 : forall v, 0 <= powf 2 v) by (intros; apply Hpow; reflexivity).
    assert (P10 : forall v, 0 <= powf 10 v) by (intros; apply Hpow; reflexivity).
    repeat split.
    + destruct G1 as [-> | [x ->]]; [exact H1 | apply P2].
    + destruct G2 as [-> | [x ->]]; [exact H2 | apply P10].
    + destruct G3 as [-> | [x ->]]; [exact H3 | apply P2].
    + destruct G4 as [-> | [x ->]]; [exact H4 | apply P2].
    + congruence.
Qed.

End Ducker.

(** C6 (amended): [agc_get_ducking_factor] returns the stored factor; a
    control update leaves it at most at the larger of its old value and
    [1 + ducker_release] and, when the release step is not negative, at
    least at the smaller of its old value and
    [1 - limit - ducker_attack]. *)
Theorem ducking_factor_step {libc : Libc} (ks : list call) (h h' : heap) (s : ptr)
  (c c' : agc) (m : Z) :
  powf_nonneg libc ->
  run ∅ ks = Some h ->
  h !! s = Some c ->
  agc_process_stage2 h s m = Some h' -> h' !! s = Some c' ->
  agc_get_ducking_factor h' s = Some (df c')
  /\ df c' <= Qmax (df c) (1 + ducker_release c)
  /\ (0 <= ducker_release c ->
      Qmin (df c) (1 - limit c - ducker_attack c) <= df c').
Proof.
  intros Hpow Hr Hs H2 Hs'.
  pose proof (duck_ok_reachable ks h s c Hpow Hr Hs) as Hok.
  split; [unfold agc_get_ducking_factor; rewrite Hs'; reflexivity |].
  destruct (stage2_channel h h' s c c' m Hs H2 Hs') as [[_ ->] | (_ & p & phase & ->)].
  - split; [apply Q.le_max_l | intros _; apply Q.le_min_l].
  - rewrite stage2_host_df.
    apply stage2_ducker_bounds.
    + apply stage2_target_nonneg. exact Hok.
    + apply Hok.
    + apply Hok.
Qed.

Lemma ducking_factor_step_witness :
  agc_get_ducking_factor one_channel_updated 1
    = Some (df (channel_at one_channel_updated 1))
  /\ df (channel_at one_channel_updated 1)
     <= Qmax (df (channel_at one_channel 1))
          (1 + ducker_release (channel_at one_channel 1))
  /\ (0 <= ducker_release (channel_at one_channel 1) ->
      Qmin (df (channel_at one_channel 1))
        (1 - limit (channel_at one_channel 1) - ducker_attack (channel_at one_channel 1))
      <= df (channel_at one_channel_updated 1)).
Proof.
  apply (ducking_factor_step (libc := RefLibc.libc) [Init 48000 0.01] one_channel
           one_channel_updated 1 (channel_at one_channel 1)
           (channel_at one_channel_updated 1) 0).
  - exact ref_powf_nonneg.
  - exact one_channel_run.
  - exact one_channel_lookup.
  - vm_compute. reflexivity.
  - vm_compute. reflexivity.
Defined.

(** ** The round-robin envelope follower *)

Lemma rr_slot_max (rp phase : Z) (inp storage : float) :
  rr_slot rp phase inp storage == Qmax (if (rp =? phase)%Z then 0 else storage) inp.
Proof.
  unfold rr_slot. destruct (rp =? phase)%Z; fcases;
    first [ rewrite Q.max_r by lra; reflexivity | rewrite Q.max_l by lra; reflexivity ].
Qed.

Lemma rr_slot_ge_input (rp phase : Z) (inp storage : float) :
  inp <= rr_slot rp phase inp storage.
Proof. rewrite rr_slot_max. apply Q.le_max_r. Qed.

Lemma rr_highest_max (storage highest : float) :
  rr_highest storage highest == Qmax highest storage.
Proof.
  unfold rr_highest. fcases;
    first [ rewrite Q.max_r by lra; reflexivity | rewrite Q.max_l by lra; reflexivity ].
Qed.

Lemma quad_rr_slots (storage : arr4 float) (reset_point : arr4 Z) (phase : Z) (x : float) :
  fst (agc_quad_rr storage reset_point phase x)
  = Arr4 (rr_slot (at0 reset_point) phase (Qabs x) (at0 storage))
         (rr_slot (at1 reset_point) phase (Qabs x) (at1 storage))
         (rr_slot (at2 reset_point) phase (Qabs x) (at2 storage))
         (rr_slot (at3 reset_point) phase (Qabs x) (at3 storage)).
Proof. reflexivity. Qed.

Lemma quad_rr_level (storage : arr4 float) (reset_point : arr4 Z) (phase : Z) (x : float) :
  snd (agc_quad_rr storage reset_point phase x)
  == max4 (fst (agc_quad_rr storage reset_point phase x)).
Proof.
  rewrite quad_rr_slots. unfold agc_quad_rr, max4. cbn [fst snd at0 at1 at2 at3].
  rewrite !rr_highest_max.
  pose proof (rr_slot_ge_input (at0 reset_point) phase (Qabs x) (at0 storage)) as H0.
  pose proof (Qabs_nonneg x) as Hx.
  rewrite (Q.max_r 0) by lra. reflexivity.
Qed.

Lemma peak_nonneg (xs : list float) : 0 <= peak xs.
Proof.
  induction xs as [| x xs IH]; cbn [peak]; [lra |].
  eapply Qle_trans; [exact IH | apply Q.le_max_r].
Qed.














(** ** A run that takes the ducking factor out of [0, 1] *)

Lemma ducking_setup_run :
  run (libc := RefLibc.libc) ∅ ducking_setup = Some ducking_start.
Proof. vm_compute. reflexivity. Qed.

Lemma ducking_start_fields :
  let c := channel_at ducking_start 1 in
  ducking_start !! 1%N = Some c
  /\ host c = 1%N /\ partner c = 1%N
  /\ df c = 1 /\ ducker_attack c = 1 /\ limit c == 8
  /\ use_ducker c = 1%Z
  /\ 1 <= ratio c /\ nr_gain c = 0.5 /\ ds_gain c = 0.5
  /\ stage2_phase c = Some 1%Z
  /\ input c == 100.
Proof. vm_compute. repeat split; congruence. Qed.

Lemma run_app {libc : Libc} (ks1 ks2 : list call) (h : heap) :
  run h (ks1 ++ ks2) = (h' ← run h ks1; run h' ks2).
Proof.
  revert h. induction ks1 as [| k ks1 IH]; intros h; cbn [app run]; [reflexivity |].
  destruct (exec h k); cbn [mbind option_bind]; [apply IH | reflexivity].
Qed.

Lemma stage2_self_step (h : heap) (s : ptr) (c : agc) (phase m : Z) :
  h !! s = Some c -> host c = s -> partner c = s -> stage2_phase c = Some phase ->
  agc_process_stage2 h s m = Some (<[s := stage2_host c (stage2_input s c c) phase m]> h).
Proof.
  intros Hs Hh Hp Hph. unfold agc_process_stage2. rewrite Hs. cbn [mbind option_bind].
  destruct (decide (s = host c)); [| congruence].
  rewrite Hp, Hs. cbn [mbind option_bind]. rewrite Hph. reflexivity.
Qed.

Lemma stage2_input_self (s : ptr) (c : agc) : host c = s -> stage2_input s c c == input c.
Proof.
  intros Hh. unfold stage2_input. destruct (decide (host c = s)); [| contradiction]. lra.
Qed.

Lemma stage2_level_ge_input (c : agc) (inp : float) (phase : Z) :
  Qabs inp <= stage2_level c inp phase.
Proof.
  rewrite stage2_level_quad_rr, quad_rr_level, quad_rr_slots.
  unfold max4. cbn [at0 at1 at2 at3].
  eapply Qle_trans; [apply rr_slot_ge_input |].
  eapply Qle_trans; [| apply Q.le_max_l].
  eapply Qle_trans; [| apply Q.le_max_l]. apply Q.le_max_l.
Qed.

(** With the ducker enabled and the microphone open, a factor above the
    proposed one (and above the floor [1 - limit]) goes down by one
    attack step. *)
Lemma stage2_ducker_attack (c : agc) (factor amp : float) :
  use_ducker c <> 0%Z ->
  1 - factor * amp < df c -> 1 - limit c < df c ->
  df (stage2_ducker c 0 factor amp) = df c - ducker_attack c.
Proof.
  intros Hu H1 H2. unfold stage2_ducker.
  destruct (use_ducker c =? 0)%Z eqn:E; [apply Z.eqb_eq in E; contradiction |].
  cbn [negb orb Z.eqb]. cbv zeta.
  destruct (1 - factor * amp <.? 1 - limit c) eqn:E1;
    [apply fltb_lt in E1 | apply fltb_ge in E1];
    (destruct (df c <.? _) eqn:E2; [apply fltb_lt in E2; lra | apply fltb_ge in E2];
     fields;
     match goal with |- context [?x >.? ?y] =>
       destruct (x >.? y) eqn:E3; [apply fgtb_gt in E3 | apply fgtb_le in E3; lra]
     end; reflexivity).
Qed.

Lemma loud_product (lim rat raw g1 g2 L : float) :
  lim == 8 -> 1 <= rat -> 100 <= L ->
  raw == Qmin (lim / (L + 0.0001)) rat ->
  (g1 = 1 \/ g1 = 0.5) -> (g2 = 1 \/ g2 = 0.5) ->
  (7 # 4) <= raw * g1 * g2 * L.
Proof.
  intros Hl Hr HL Hraw G1 G2.
  assert (H7 : 7 <= raw * L).
  { rewrite Hraw.
    destruct (Q.min_spec (lim / (L + 0.0001)) rat) as [[_ ->] | [_ ->]].
    - rewrite Hl.
      assert (He : 8 / (L + 0.0001) * L == 8 * L / (L + 0.0001)) by (field; lra).
      rewrite He. apply Qle_shift_div_l; lra.
    - nra. }
  destruct G1 as [-> | ->]; destruct G2 as [-> | ->]; nra.
Qed.

(** A loud level against a limit of 8: target times level is at least 7/4. *)
Lemma stage2_loud (c : agc) (inp : float) (phase : Z) :
  limit c == 8 -> 1 <= ratio c -> nr_gain c = 0.5 -> ds_gain c = 0.5 ->
  100 <= Qabs inp ->
  (7 # 4) <= stage2_target c inp phase * stage2_level c inp phase.
Proof.
  intros Hl Hr Hn Hd Hx.
  pose proof (stage2_level_ge_input c inp phase) as HL.
  pose proof (stage2_target_formula c inp phase 0) as HT.
  pose proof (stage2_raw_factor_min c (stage2_level c inp phase)) as Hraw.
  rewrite HT.
  generalize dependent (stage2_raw_factor c (stage2_level c inp phase)). intros raw _ Hraw.
  generalize dependent (stage2_level c inp phase). intros L HL Hraw.
  assert (HL' : 100 <= L) by lra.
  cbv zeta. rewrite Hn, Hd.
  destruct (nr_state _ =? 1)%Z; destruct (ds_state _ =? 1)%Z.
  - apply (loud_product (limit c) (ratio c) raw 0.5 0.5 L); auto.
  - pose proof (loud_product (limit c) (ratio c) raw 0.5 1 L Hl Hr HL' Hraw
                  ltac:(auto) ltac:(auto)). nra.
  - pose proof (loud_product (limit c) (ratio c) raw 1 0.5 L Hl Hr HL' Hraw
                  ltac:(auto) ltac:(auto)). nra.
  - pose proof (loud_product (limit c) (ratio c) raw 1 1 L Hl Hr HL' Hraw
                  ltac:(auto) ltac:(auto)). nra.
Qed.

(** Two control updates of a self-hosted, self-partnered channel that
    holds a loud sample, with the ducker on and the limit at 8: each takes
    one attack step off the ducking factor. *)
Lemma loud_update (c : agc) (phase : Z) :
  host c = 1%N -> use_ducker c <> 0%Z ->
  limit c == 8 -> 1 <= ratio c -> nr_gain c = 0.5 -> ds_gain c = 0.5 ->
  input c == 100 -> 0 <= df c ->
  let c' := stage2_host c (stage2_input 1 c c) phase 0 in
  df c' = df c - ducker_attack c
  /\ stage2_untouched c' = stage2_untouched c.
Proof.
  intros Hh Hu Hl Hr Hn Hd Hin Hdf c'. split; [| apply stage2_host_untouched].
  unfold c'. rewrite stage2_host_df.
  assert (Hx : 100 <= Qabs (stage2_input 1 c c)).
  { rewrite (stage2_input_self 1 c Hh), Hin. discriminate. }
  pose proof (stage2_loud c (stage2_input 1 c c) phase Hl Hr Hn Hd Hx) as Hp.
  apply stage2_ducker_attack; [exact Hu | lra | lra].
Qed.


(** C6 as stated fails: with the limit at +18 dB a loud sample drives the
    ducking factor to -1 in two control updates. *)
Lemma ducking_factor_counterexample :
  exists (h : heap) (d : float),
    run (libc := RefLibc.libc) ∅ ducking_calls = Some h
    /\ agc_get_ducking_factor h 1 = Some d
    /\ d == -1
    /\ ~ (0 <= d /\ d <= 1).
Proof.
  destruct ducking_start_fields
    as (Hs & Hh & Hp & Hdf & Ha & Hl & Hu & Hr & Hn & Hd & Hph & Hin).
  pose proof ducking_setup_run as Hrun.
  generalize dependent (channel_at ducking_start 1). intros c1. intros.
  generalize dependent ducking_start. intros h1. intros.
  (* the first control update *)
  assert (Hu1 : use_ducker c1 <> 0%Z) by (rewrite Hu; discriminate).
  assert (Hr1 : 1 <= ratio c1) by exact Hr.
  assert (Hdf1 : 0 <= df c1) by (rewrite Hdf; discriminate).
  destruct (loud_update c1 1 Hh Hu1 Hl Hr1 Hn Hd Hin Hdf1) as [Hdf2 Hu2].
  pose proof (stage2_self_step h1 1 c1 1 0 Hs Hh Hp Hph) as Hstep1.
  frame_eqs Hu2.
  (* the second control update *)
  assert (Hh2 : host c' = 1%N) by congruence.
  assert (Hp2 : partner c' = 1%N) by congruence.
  assert (Hu2' : use_ducker c' <> 0%Z) by congruence.
  assert (Hl2 : limit c' == 8) by (assert (E : limit c' = limit c1) by congruence; rewrite E; assumption).
  assert (Hr2 : 1 <= ratio c') by (assert (E : ratio c' = ratio c1) by congruence; rewrite E; assumption).
  assert (Hn2 : nr_gain c' = 0.5) by congruence.
  assert (Hd2 : ds_gain c' = 0.5) by congruence.
  assert (Hin2 : input c' == 100) by (assert (E : input c' = input c1) by congruence; rewrite E; assumption).
  assert (Hdf2' : 0 <= df c') by (rewrite Hdf2, Hdf, Ha; discriminate).
  assert (Hph2 : stage2_phase c' = Some 1%Z).
  { assert (E1 : buffer_len c' = buffer_len c1) by congruence.
    assert (E2 : in_pos c' = in_pos c1) by congruence.
    unfold stage2_phase in *. rewrite E1, E2. exact Hph. }
  assert (Hs2 : <[1%N := c']> h1 !! 1%N = Some c') by apply lookup_insert_eq.
  destruct (loud_update c' 1 Hh2 Hu2' Hl2 Hr2 Hn2 Hd2 Hin2 Hdf2') as [Hdf3 _].
  pose proof (stage2_self_step (<[1%N := c']> h1) 1 c' 1 0 Hs2 Hh2 Hp2 Hph2) as Hstep2.
  set (c3 := stage2_host c' (stage2_input 1 c' c') 1 0) in *. clearbody c3.
  assert (Ha2 : ducker_attack c' = 1) by congruence.
  exists (<[1%N := c3]> (<[1%N := c']> h1)), (df c3).
  split; [| split; [| split]].
  - unfold ducking_calls. rewrite run_app, Hrun. cbn [mbind option_bind run exec].
    rewrite Hstep1. cbn [mbind option_bind]. rewrite Hstep2. reflexivity.
  - unfold agc_get_ducking_factor. rewrite lookup_insert_eq. reflexivity.
  - rewrite Hdf3, Hdf2, Hdf, Ha, Ha2. reflexivity.
  - rewrite Hdf3, Hdf2, Hdf, Ha, Ha2. intros [Hneg _]. apply Hneg. reflexivity.
Qed.
